(** * FaceRecorder: the detection-and-recording pipeline of FaceTrackerApp

    A shallow embedding of the [FaceRecorder] React component
    (app/components/FaceRecorder.js) and the properties of its recording,
    detection and teardown paths.

    The component is event driven: the browser delivers timer ticks, media
    events, promise settlements and clicks, and each handler runs to
    completion on the single JavaScript thread.  A handler is modelled as a
    function on [State], which gathers the component's [useState] values, its
    [useRef] cells and the host objects the handlers act on (canvases,
    recorders, interval timers, media streams, the blob URL store, the
    console).  What the host decides (whether a promise resolves, what the
    detector returns, whether [MediaRecorder] throws) travels with the event.

    React does not run a handler's state updates at once: it renders later,
    and runs the effects of a render later still.  A [useState] field below
    holds the latest value set; what the last render whose effects ran has
    left behind (the [cleanup] the mount effect holds, the listener for the
    video's [play] event) is kept apart, and is brought up to date by the
    event [FlushEffects] only.

    JavaScript numbers are doubles; the only arithmetic of the component is
    in [calculateDimensions] and in face-api's rescaling, and it is written
    here over the rationals.  The width is a whole number and the height
    three quarters of it, which a double holds exactly.  The size of a
    canvas is a whole number of pixels: [canvasSize]. *)

From Stdlib Require Import String Ascii DecimalString ZArith QArith Qminmax.
From Stdlib Require Import Bool Arith Lia List.
From Stdlib Require Import Strings.Byte.
From Stdlib Require Qcanon DecimalNat.
Import ListNotations.
Local Close Scope Q_scope.

(** ** Values *)

(** [videoDimensions]: [{ width, height }]. *)
Record Dimensions := { width : Q; height : Q }.

(** A [Blob]: its bytes and its MIME type.  [new Blob(parts, { type })]
    concatenates the parts in order. *)
Record Blob := { blob_bytes : list byte; blob_type : string }.

Definition size (b : Blob) : nat := length (blob_bytes b).

Definition newBlob (parts : list Blob) (type : string) : Blob :=
  {| blob_bytes := concat (map blob_bytes parts); blob_type := type |}.

(** face-api results: a detection carries the dimensions of the image its
    coordinates refer to, a bounding box, the landmark points and a score. *)
Record Point := { px : Q; py : Q }.
Record Box := { box_x : Q; box_y : Q; box_width : Q; box_height : Q }.
Record Detection :=
  { imageDims : Dimensions; box : Box; landmarks : list Point; score : Q }.

(** [faceapi.resizeResults(detections, dimensions)] throws its error
    'resizeResults - invalid dimensions' unless both dimensions are
    positive.  Otherwise every detection is re-expressed for
    an image of the given dimensions: each coordinate is taken relative to
    [imageDims] and multiplied by the new dimension of its axis.  Numbers
    are kept in lowest terms. *)
Definition rescale (from to : Q) (x : Q) : Q := Qred (x / from * to)%Q.

Definition forSize (dims : Dimensions) (d : Detection) : Detection :=
  let onX := rescale (width (imageDims d)) (width dims) in
  let onY := rescale (height (imageDims d)) (height dims) in
  {| imageDims := dims;
     box := {| box_x := onX (box_x (box d));
               box_y := onY (box_y (box d));
               box_width := onX (box_width (box d));
               box_height := onY (box_height (box d)) |};
     landmarks :=
       map (fun p => {| px := onX (px p); py := onY (py p) |}) (landmarks d);
     score := score d |}.

Definition resizeResults (detections : list Detection) (dims : Dimensions)
  : option (list Detection) :=
  if Qle_bool (width dims) 0 || Qle_bool (height dims) 0 then None
  else Some (map (forSize dims) detections).

(** ** Host objects *)

(** A canvas: its size in pixels and the drawing operations applied since
    it was last cleared in full.  The pixels are a function of that list, so
    two canvases of equal size with equal lists show the same picture. *)
Inductive CanvasOp :=
| OpClearRect (x y w h : Q)
| OpDrawDetections (ds : list Detection)
| OpDrawFaceLandmarks (ds : list Detection).

Record Canvas := { cv_width : Z; cv_height : Z; cv_ops : list CanvasOp }.

(** [canvas.width = x] and [canvas.height = x].  The two attributes are of
    the IDL type [unsigned long]: the number assigned is truncated towards
    zero and reduced modulo 2^32, and a result above 2^31 - 1 is replaced by
    the attribute's default, 300 for the width and 150 for the height. *)
Definition toUint32 (x : Q) : Z :=
  (Z.quot (Qnum x) (Zpos (Qden x)) mod 2 ^ 32)%Z.

Definition canvasSize (default : Z) (x : Q) : Z :=
  let n := toUint32 x in
  if (2147483647 <? n)%Z then default else n.

(** [faceapi.matchDimensions(canvas, dimensions)] assigns the two
    attributes; assigning a size to a canvas clears it. *)
Definition matchDimensions (c : Canvas) (dims : Dimensions) : Canvas :=
  {| cv_width := canvasSize 300 (width dims);
     cv_height := canvasSize 150 (height dims);
     cv_ops := [] |}.

(** [ctx.clearRect(x, y, w, h)] clears the rectangle with corners [(x, y)]
    and [(x + w, y + h)], whatever the signs of [w] and [h].  A rectangle
    that covers the whole canvas erases everything; another one is recorded
    on top of what is there. *)
Definition covers (x y w h : Q) (c : Canvas) : bool :=
  Qle_bool (Qmin x (x + w)) 0 && Qle_bool (Qmin y (y + h)) 0 &&
  Qle_bool (inject_Z (cv_width c)) (Qmax x (x + w)) &&
  Qle_bool (inject_Z (cv_height c)) (Qmax y (y + h)).

Definition set_ops (ops : list CanvasOp) (c : Canvas) : Canvas :=
  {| cv_width := cv_width c; cv_height := cv_height c; cv_ops := ops |}.

Definition clearRect (x y w h : Q) (c : Canvas) : Canvas :=
  if covers x y w h c then set_ops [] c
  else set_ops (cv_ops c ++ [OpClearRect x y w h]) c.

Definition drawDetections (ds : list Detection) (c : Canvas) : Canvas :=
  set_ops (cv_ops c ++ [OpDrawDetections ds]) c.

Definition drawFaceLandmarks (ds : list Detection) (c : Canvas) : Canvas :=
  set_ops (cv_ops c ++ [OpDrawFaceLandmarks ds]) c.

(** A [MediaRecorder] over the stream captured from a canvas. *)
Inductive RecordingState := Inactive | Recording.

Record MediaRecorder := { mr_canvas : nat; mr_state : RecordingState }.

(** A [MediaStream]: the state of each of its tracks. *)
Inductive TrackState := Live | Ended.

Definition MediaStream := list TrackState.

(** What the callback handed to [setInterval] in [startFaceDetection] closes
    over: the canvas returned by [setupCanvas], and the [modelsLoaded] and
    [videoDimensions] of the render that created [startFaceDetection]. *)
Record Closure :=
  { cl_canvas : nat; cl_modelsLoaded : bool; cl_dims : Dimensions }.

(** What the listener registered for the video's [play] event closes over:
    the [modelsLoaded], [cameraReady] and [videoDimensions] of the render
    whose effect registered it.  [handlePlay] reads the two flags;
    [startFaceDetection] and [setupCanvas], created in the same render, read
    [modelsLoaded] and [videoDimensions]. *)
Record Listener :=
  { pl_modelsLoaded : bool; pl_cameraReady : bool; pl_dims : Dimensions }.

(** ** Component state *)

Record State := {
  (* useState *)
  recording : bool;
  videoURL : option nat;
  modelsLoaded : bool;
  cameraReady : bool;
  error : option string;
  faceDetected : bool;
  recordingTime : nat;
  videoDimensions : Dimensions;
  (* useRef *)
  mounted : bool;                      (* videoRef.current, canvasRef.current *)
  canvasChild : option nat;            (* canvasRef.current.firstChild *)
  recorderRef : option nat;
  recordedChunks : list Blob;
  detectionIntervalRef : option nat;
  streamRef : option nat;
  (* host *)
  canvases : list Canvas;              (* every canvas created, by identity *)
  recorders : list MediaRecorder;      (* every recorder created, by identity *)
  intervals : list (nat * Closure);    (* live setInterval timers *)
  nextTimer : nat;
  inflight : list Closure;             (* detection cycles awaiting inference *)
  streams : list MediaStream;          (* every stream granted, by identity *)
  urlStore : list (nat * Blob);        (* live object URLs *)
  nextURL : nat;
  console : list string;               (* newest line first *)
  innerWidth : Z;                      (* window.innerWidth *)
  (* the videoURL that the cleanup held by the mount effect closes over *)
  effectVideoURL : option nat;
  (* the listener registered for the video's play event *)
  playListener : Listener
}.

Definition set_recording (v : bool) (s : State) : State :=
  {| recording := v; videoURL := videoURL s; modelsLoaded := modelsLoaded s;
     cameraReady := cameraReady s; error := error s; faceDetected :=
     faceDetected s; recordingTime := recordingTime s; videoDimensions :=
     videoDimensions s; mounted := mounted s; canvasChild := canvasChild s;
     recorderRef := recorderRef s; recordedChunks := recordedChunks s;
     detectionIntervalRef := detectionIntervalRef s; streamRef := streamRef s;
     canvases := canvases s; recorders := recorders s; intervals := intervals
     s; nextTimer := nextTimer s; inflight := inflight s; streams := streams s;
     urlStore := urlStore s; nextURL := nextURL s; console := console s;
     innerWidth := innerWidth s; effectVideoURL := effectVideoURL s;
     playListener := playListener s |}.

Definition set_videoURL (v : option nat) (s : State) : State :=
  {| recording := recording s; videoURL := v; modelsLoaded := modelsLoaded s;
     cameraReady := cameraReady s; error := error s; faceDetected :=
     faceDetected s; recordingTime := recordingTime s; videoDimensions :=
     videoDimensions s; mounted := mounted s; canvasChild := canvasChild s;
     recorderRef := recorderRef s; recordedChunks := recordedChunks s;
     detectionIntervalRef := detectionIntervalRef s; streamRef := streamRef s;
     canvases := canvases s; recorders := recorders s; intervals := intervals
     s; nextTimer := nextTimer s; inflight := inflight s; streams := streams s;
     urlStore := urlStore s; nextURL := nextURL s; console := console s;
     innerWidth := innerWidth s; effectVideoURL := effectVideoURL s;
     playListener := playListener s |}.

Definition set_modelsLoaded (v : bool) (s : State) : State :=
  {| recording := recording s; videoURL := videoURL s; modelsLoaded := v;
     cameraReady := cameraReady s; error := error s; faceDetected :=
     faceDetected s; recordingTime := recordingTime s; videoDimensions :=
     videoDimensions s; mounted := mounted s; canvasChild := canvasChild s;
     recorderRef := recorderRef s; recordedChunks := recordedChunks s;
     detectionIntervalRef := detectionIntervalRef s; streamRef := streamRef s;
     canvases := canvases s; recorders := recorders s; intervals := intervals
     s; nextTimer := nextTimer s; inflight := inflight s; streams := streams s;
     urlStore := urlStore s; nextURL := nextURL s; console := console s;
     innerWidth := innerWidth s; effectVideoURL := effectVideoURL s;
     playListener := playListener s |}.

Definition set_cameraReady (v : bool) (s : State) : State :=
  {| recording := recording s; videoURL := videoURL s; modelsLoaded :=
     modelsLoaded s; cameraReady := v; error := error s; faceDetected :=
     faceDetected s; recordingTime := recordingTime s; videoDimensions :=
     videoDimensions s; mounted := mounted s; canvasChild := canvasChild s;
     recorderRef := recorderRef s; recordedChunks := recordedChunks s;
     detectionIntervalRef := detectionIntervalRef s; streamRef := streamRef s;
     canvases := canvases s; recorders := recorders s; intervals := intervals
     s; nextTimer := nextTimer s; inflight := inflight s; streams := streams s;
     urlStore := urlStore s; nextURL := nextURL s; console := console s;
     innerWidth := innerWidth s; effectVideoURL := effectVideoURL s;
     playListener := playListener s |}.

Definition set_error (v : option string) (s : State) : State :=
  {| recording := recording s; videoURL := videoURL s; modelsLoaded :=
     modelsLoaded s; cameraReady := cameraReady s; error := v; faceDetected :=
     faceDetected s; recordingTime := recordingTime s; videoDimensions :=
     videoDimensions s; mounted := mounted s; canvasChild := canvasChild s;
     recorderRef := recorderRef s; recordedChunks := recordedChunks s;
     detectionIntervalRef := detectionIntervalRef s; streamRef := streamRef s;
     canvases := canvases s; recorders := recorders s; intervals := intervals
     s; nextTimer := nextTimer s; inflight := inflight s; streams := streams s;
     urlStore := urlStore s; nextURL := nextURL s; console := console s;
     innerWidth := innerWidth s; effectVideoURL := effectVideoURL s;
     playListener := playListener s |}.

Definition set_faceDetected (v : bool) (s : State) : State :=
  {| recording := recording s; videoURL := videoURL s; modelsLoaded :=
     modelsLoaded s; cameraReady := cameraReady s; error := error s;
     faceDetected := v; recordingTime := recordingTime s; videoDimensions :=
     videoDimensions s; mounted := mounted s; canvasChild := canvasChild s;
     recorderRef := recorderRef s; recordedChunks := recordedChunks s;
     detectionIntervalRef := detectionIntervalRef s; streamRef := streamRef s;
     canvases := canvases s; recorders := recorders s; intervals := intervals
     s; nextTimer := nextTimer s; inflight := inflight s; streams := streams s;
     urlStore := urlStore s; nextURL := nextURL s; console := console s;
     innerWidth := innerWidth s; effectVideoURL := effectVideoURL s;
     playListener := playListener s |}.

Definition set_recordingTime (v : nat) (s : State) : State :=
  {| recording := recording s; videoURL := videoURL s; modelsLoaded :=
     modelsLoaded s; cameraReady := cameraReady s; error := error s;
     faceDetected := faceDetected s; recordingTime := v; videoDimensions :=
     videoDimensions s; mounted := mounted s; canvasChild := canvasChild s;
     recorderRef := recorderRef s; recordedChunks := recordedChunks s;
     detectionIntervalRef := detectionIntervalRef s; streamRef := streamRef s;
     canvases := canvases s; recorders := recorders s; intervals := intervals
     s; nextTimer := nextTimer s; inflight := inflight s; streams := streams s;
     urlStore := urlStore s; nextURL := nextURL s; console := console s;
     innerWidth := innerWidth s; effectVideoURL := effectVideoURL s;
     playListener := playListener s |}.

Definition set_videoDimensions (v : Dimensions) (s : State) : State :=
  {| recording := recording s; videoURL := videoURL s; modelsLoaded :=
     modelsLoaded s; cameraReady := cameraReady s; error := error s;
     faceDetected := faceDetected s; recordingTime := recordingTime s;
     videoDimensions := v; mounted := mounted s; canvasChild := canvasChild s;
     recorderRef := recorderRef s; recordedChunks := recordedChunks s;
     detectionIntervalRef := detectionIntervalRef s; streamRef := streamRef s;
     canvases := canvases s; recorders := recorders s; intervals := intervals
     s; nextTimer := nextTimer s; inflight := inflight s; streams := streams s;
     urlStore := urlStore s; nextURL := nextURL s; console := console s;
     innerWidth := innerWidth s; effectVideoURL := effectVideoURL s;
     playListener := playListener s |}.

Definition set_mounted (v : bool) (s : State) : State :=
  {| recording := recording s; videoURL := videoURL s; modelsLoaded :=
     modelsLoaded s; cameraReady := cameraReady s; error := error s;
     faceDetected := faceDetected s; recordingTime := recordingTime s;
     videoDimensions := videoDimensions s; mounted := v; canvasChild :=
     canvasChild s; recorderRef := recorderRef s; recordedChunks :=
     recordedChunks s; detectionIntervalRef := detectionIntervalRef s;
     streamRef := streamRef s; canvases := canvases s; recorders := recorders
     s; intervals := intervals s; nextTimer := nextTimer s; inflight :=
     inflight s; streams := streams s; urlStore := urlStore s; nextURL :=
     nextURL s; console := console s; innerWidth := innerWidth s;
     effectVideoURL := effectVideoURL s; playListener := playListener s |}.

Definition set_canvasChild (v : option nat) (s : State) : State :=
  {| recording := recording s; videoURL := videoURL s; modelsLoaded :=
     modelsLoaded s; cameraReady := cameraReady s; error := error s;
     faceDetected := faceDetected s; recordingTime := recordingTime s;
     videoDimensions := videoDimensions s; mounted := mounted s; canvasChild :=
     v; recorderRef := recorderRef s; recordedChunks := recordedChunks s;
     detectionIntervalRef := detectionIntervalRef s; streamRef := streamRef s;
     canvases := canvases s; recorders := recorders s; intervals := intervals
     s; nextTimer := nextTimer s; inflight := inflight s; streams := streams s;
     urlStore := urlStore s; nextURL := nextURL s; console := console s;
     innerWidth := innerWidth s; effectVideoURL := effectVideoURL s;
     playListener := playListener s |}.

Definition set_recorderRef (v : option nat) (s : State) : State :=
  {| recording := recording s; videoURL := videoURL s; modelsLoaded :=
     modelsLoaded s; cameraReady := cameraReady s; error := error s;
     faceDetected := faceDetected s; recordingTime := recordingTime s;
     videoDimensions := videoDimensions s; mounted := mounted s; canvasChild :=
     canvasChild s; recorderRef := v; recordedChunks := recordedChunks s;
     detectionIntervalRef := detectionIntervalRef s; streamRef := streamRef s;
     canvases := canvases s; recorders := recorders s; intervals := intervals
     s; nextTimer := nextTimer s; inflight := inflight s; streams := streams s;
     urlStore := urlStore s; nextURL := nextURL s; console := console s;
     innerWidth := innerWidth s; effectVideoURL := effectVideoURL s;
     playListener := playListener s |}.

Definition set_recordedChunks (v : list Blob) (s : State) : State :=
  {| recording := recording s; videoURL := videoURL s; modelsLoaded :=
     modelsLoaded s; cameraReady := cameraReady s; error := error s;
     faceDetected := faceDetected s; recordingTime := recordingTime s;
     videoDimensions := videoDimensions s; mounted := mounted s; canvasChild :=
     canvasChild s; recorderRef := recorderRef s; recordedChunks := v;
     detectionIntervalRef := detectionIntervalRef s; streamRef := streamRef s;
     canvases := canvases s; recorders := recorders s; intervals := intervals
     s; nextTimer := nextTimer s; inflight := inflight s; streams := streams s;
     urlStore := urlStore s; nextURL := nextURL s; console := console s;
     innerWidth := innerWidth s; effectVideoURL := effectVideoURL s;
     playListener := playListener s |}.

Definition set_detectionIntervalRef (v : option nat) (s : State) : State :=
  {| recording := recording s; videoURL := videoURL s; modelsLoaded :=
     modelsLoaded s; cameraReady := cameraReady s; error := error s;
     faceDetected := faceDetected s; recordingTime := recordingTime s;
     videoDimensions := videoDimensions s; mounted := mounted s; canvasChild :=
     canvasChild s; recorderRef := recorderRef s; recordedChunks :=
     recordedChunks s; detectionIntervalRef := v; streamRef := streamRef s;
     canvases := canvases s; recorders := recorders s; intervals := intervals
     s; nextTimer := nextTimer s; inflight := inflight s; streams := streams s;
     urlStore := urlStore s; nextURL := nextURL s; console := console s;
     innerWidth := innerWidth s; effectVideoURL := effectVideoURL s;
     playListener := playListener s |}.

Definition set_streamRef (v : option nat) (s : State) : State :=
  {| recording := recording s; videoURL := videoURL s; modelsLoaded :=
     modelsLoaded s; cameraReady := cameraReady s; error := error s;
     faceDetected := faceDetected s; recordingTime := recordingTime s;
     videoDimensions := videoDimensions s; mounted := mounted s; canvasChild :=
     canvasChild s; recorderRef := recorderRef s; recordedChunks :=
     recordedChunks s; detectionIntervalRef := detectionIntervalRef s;
     streamRef := v; canvases := canvases s; recorders := recorders s;
     intervals := intervals s; nextTimer := nextTimer s; inflight := inflight
     s; streams := streams s; urlStore := urlStore s; nextURL := nextURL s;
     console := console s; innerWidth := innerWidth s; effectVideoURL :=
     effectVideoURL s; playListener := playListener s |}.

Definition set_canvases (v : list Canvas) (s : State) : State :=
  {| recording := recording s; videoURL := videoURL s; modelsLoaded :=
     modelsLoaded s; cameraReady := cameraReady s; error := error s;
     faceDetected := faceDetected s; recordingTime := recordingTime s;
     videoDimensions := videoDimensions s; mounted := mounted s; canvasChild :=
     canvasChild s; recorderRef := recorderRef s; recordedChunks :=
     recordedChunks s; detectionIntervalRef := detectionIntervalRef s;
     streamRef := streamRef s; canvases := v; recorders := recorders s;
     intervals := intervals s; nextTimer := nextTimer s; inflight := inflight
     s; streams := streams s; urlStore := urlStore s; nextURL := nextURL s;
     console := console s; innerWidth := innerWidth s; effectVideoURL :=
     effectVideoURL s; playListener := playListener s |}.

Definition set_recorders (v : list MediaRecorder) (s : State) : State :=
  {| recording := recording s; videoURL := videoURL s; modelsLoaded :=
     modelsLoaded s; cameraReady := cameraReady s; error := error s;
     faceDetected := faceDetected s; recordingTime := recordingTime s;
     videoDimensions := videoDimensions s; mounted := mounted s; canvasChild :=
     canvasChild s; recorderRef := recorderRef s; recordedChunks :=
     recordedChunks s; detectionIntervalRef := detectionIntervalRef s;
     streamRef := streamRef s; canvases := canvases s; recorders := v;
     intervals := intervals s; nextTimer := nextTimer s; inflight := inflight
     s; streams := streams s; urlStore := urlStore s; nextURL := nextURL s;
     console := console s; innerWidth := innerWidth s; effectVideoURL :=
     effectVideoURL s; playListener := playListener s |}.

Definition set_intervals (v : list (nat * Closure)) (s : State) : State :=
  {| recording := recording s; videoURL := videoURL s; modelsLoaded :=
     modelsLoaded s; cameraReady := cameraReady s; error := error s;
     faceDetected := faceDetected s; recordingTime := recordingTime s;
     videoDimensions := videoDimensions s; mounted := mounted s; canvasChild :=
     canvasChild s; recorderRef := recorderRef s; recordedChunks :=
     recordedChunks s; detectionIntervalRef := detectionIntervalRef s;
     streamRef := streamRef s; canvases := canvases s; recorders := recorders
     s; intervals := v; nextTimer := nextTimer s; inflight := inflight s;
     streams := streams s; urlStore := urlStore s; nextURL := nextURL s;
     console := console s; innerWidth := innerWidth s; effectVideoURL :=
     effectVideoURL s; playListener := playListener s |}.

Definition set_nextTimer (v : nat) (s : State) : State :=
  {| recording := recording s; videoURL := videoURL s; modelsLoaded :=
     modelsLoaded s; cameraReady := cameraReady s; error := error s;
     faceDetected := faceDetected s; recordingTime := recordingTime s;
     videoDimensions := videoDimensions s; mounted := mounted s; canvasChild :=
     canvasChild s; recorderRef := recorderRef s; recordedChunks :=
     recordedChunks s; detectionIntervalRef := detectionIntervalRef s;
     streamRef := streamRef s; canvases := canvases s; recorders := recorders
     s; intervals := intervals s; nextTimer := v; inflight := inflight s;
     streams := streams s; urlStore := urlStore s; nextURL := nextURL s;
     console := console s; innerWidth := innerWidth s; effectVideoURL :=
     effectVideoURL s; playListener := playListener s |}.

Definition set_inflight (v : list Closure) (s : State) : State :=
  {| recording := recording s; videoURL := videoURL s; modelsLoaded :=
     modelsLoaded s; cameraReady := cameraReady s; error := error s;
     faceDetected := faceDetected s; recordingTime := recordingTime s;
     videoDimensions := videoDimensions s; mounted := mounted s; canvasChild :=
     canvasChild s; recorderRef := recorderRef s; recordedChunks :=
     recordedChunks s; detectionIntervalRef := detectionIntervalRef s;
     streamRef := streamRef s; canvases := canvases s; recorders := recorders
     s; intervals := intervals s; nextTimer := nextTimer s; inflight := v;
     streams := streams s; urlStore := urlStore s; nextURL := nextURL s;
     console := console s; innerWidth := innerWidth s; effectVideoURL :=
     effectVideoURL s; playListener := playListener s |}.

Definition set_streams (v : list MediaStream) (s : State) : State :=
  {| recording := recording s; videoURL := videoURL s; modelsLoaded :=
     modelsLoaded s; cameraReady := cameraReady s; error := error s;
     faceDetected := faceDetected s; recordingTime := recordingTime s;
     videoDimensions := videoDimensions s; mounted := mounted s; canvasChild :=
     canvasChild s; recorderRef := recorderRef s; recordedChunks :=
     recordedChunks s; detectionIntervalRef := detectionIntervalRef s;
     streamRef := streamRef s; canvases := canvases s; recorders := recorders
     s; intervals := intervals s; nextTimer := nextTimer s; inflight :=
     inflight s; streams := v; urlStore := urlStore s; nextURL := nextURL s;
     console := console s; innerWidth := innerWidth s; effectVideoURL :=
     effectVideoURL s; playListener := playListener s |}.

Definition set_urlStore (v : list (nat * Blob)) (s : State) : State :=
  {| recording := recording s; videoURL := videoURL s; modelsLoaded :=
     modelsLoaded s; cameraReady := cameraReady s; error := error s;
     faceDetected := faceDetected s; recordingTime := recordingTime s;
     videoDimensions := videoDimensions s; mounted := mounted s; canvasChild :=
     canvasChild s; recorderRef := recorderRef s; recordedChunks :=
     recordedChunks s; detectionIntervalRef := detectionIntervalRef s;
     streamRef := streamRef s; canvases := canvases s; recorders := recorders
     s; intervals := intervals s; nextTimer := nextTimer s; inflight :=
     inflight s; streams := streams s; urlStore := v; nextURL := nextURL s;
     console := console s; innerWidth := innerWidth s; effectVideoURL :=
     effectVideoURL s; playListener := playListener s |}.

Definition set_nextURL (v : nat) (s : State) : State :=
  {| recording := recording s; videoURL := videoURL s; modelsLoaded :=
     modelsLoaded s; cameraReady := cameraReady s; error := error s;
     faceDetected := faceDetected s; recordingTime := recordingTime s;
     videoDimensions := videoDimensions s; mounted := mounted s; canvasChild :=
     canvasChild s; recorderRef := recorderRef s; recordedChunks :=
     recordedChunks s; detectionIntervalRef := detectionIntervalRef s;
     streamRef := streamRef s; canvases := canvases s; recorders := recorders
     s; intervals := intervals s; nextTimer := nextTimer s; inflight :=
     inflight s; streams := streams s; urlStore := urlStore s; nextURL := v;
     console := console s; innerWidth := innerWidth s; effectVideoURL :=
     effectVideoURL s; playListener := playListener s |}.

Definition set_console (v : list string) (s : State) : State :=
  {| recording := recording s; videoURL := videoURL s; modelsLoaded :=
     modelsLoaded s; cameraReady := cameraReady s; error := error s;
     faceDetected := faceDetected s; recordingTime := recordingTime s;
     videoDimensions := videoDimensions s; mounted := mounted s; canvasChild :=
     canvasChild s; recorderRef := recorderRef s; recordedChunks :=
     recordedChunks s; detectionIntervalRef := detectionIntervalRef s;
     streamRef := streamRef s; canvases := canvases s; recorders := recorders
     s; intervals := intervals s; nextTimer := nextTimer s; inflight :=
     inflight s; streams := streams s; urlStore := urlStore s; nextURL :=
     nextURL s; console := v; innerWidth := innerWidth s; effectVideoURL :=
     effectVideoURL s; playListener := playListener s |}.

Definition set_innerWidth (v : Z) (s : State) : State :=
  {| recording := recording s; videoURL := videoURL s; modelsLoaded :=
     modelsLoaded s; cameraReady := cameraReady s; error := error s;
     faceDetected := faceDetected s; recordingTime := recordingTime s;
     videoDimensions := videoDimensions s; mounted := mounted s; canvasChild :=
     canvasChild s; recorderRef := recorderRef s; recordedChunks :=
     recordedChunks s; detectionIntervalRef := detectionIntervalRef s;
     streamRef := streamRef s; canvases := canvases s; recorders := recorders
     s; intervals := intervals s; nextTimer := nextTimer s; inflight :=
     inflight s; streams := streams s; urlStore := urlStore s; nextURL :=
     nextURL s; console := console s; innerWidth := v; effectVideoURL :=
     effectVideoURL s; playListener := playListener s |}.

Definition set_effectVideoURL (v : option nat) (s : State) : State :=
  {| recording := recording s; videoURL := videoURL s; modelsLoaded :=
     modelsLoaded s; cameraReady := cameraReady s; error := error s;
     faceDetected := faceDetected s; recordingTime := recordingTime s;
     videoDimensions := videoDimensions s; mounted := mounted s; canvasChild :=
     canvasChild s; recorderRef := recorderRef s; recordedChunks :=
     recordedChunks s; detectionIntervalRef := detectionIntervalRef s;
     streamRef := streamRef s; canvases := canvases s; recorders := recorders
     s; intervals := intervals s; nextTimer := nextTimer s; inflight :=
     inflight s; streams := streams s; urlStore := urlStore s; nextURL :=
     nextURL s; console := console s; innerWidth := innerWidth s;
     effectVideoURL := v; playListener := playListener s |}.

Definition set_playListener (v : Listener) (s : State) : State :=
  {| recording := recording s; videoURL := videoURL s; modelsLoaded :=
     modelsLoaded s; cameraReady := cameraReady s; error := error s;
     faceDetected := faceDetected s; recordingTime := recordingTime s;
     videoDimensions := videoDimensions s; mounted := mounted s; canvasChild :=
     canvasChild s; recorderRef := recorderRef s; recordedChunks :=
     recordedChunks s; detectionIntervalRef := detectionIntervalRef s;
     streamRef := streamRef s; canvases := canvases s; recorders := recorders
     s; intervals := intervals s; nextTimer := nextTimer s; inflight :=
     inflight s; streams := streams s; urlStore := urlStore s; nextURL :=
     nextURL s; console := console s; innerWidth := innerWidth s;
     effectVideoURL := effectVideoURL s; playListener := v |}.

(** ** Helpers on host tables *)

Definition update_nth {A} (n : nat) (f : A -> A) (l : list A) : list A :=
  match nth_error l n with
  | Some a => firstn n l ++ f a :: skipn (S n) l
  | None => l
  end.

Definition remove_nth {A} (n : nat) (l : list A) : list A :=
  firstn n l ++ skipn (S n) l.

Definition option_nat_eqb (a b : option nat) : bool :=
  match a, b with
  | Some x, Some y => Nat.eqb x y
  | None, None => true
  | _, _ => false
  end.

Fixpoint lookup {A} (k : nat) (l : list (nat * A)) : option A :=
  match l with
  | [] => None
  | (k', a) :: l' => if Nat.eqb k k' then Some a else lookup k l'
  end.

Definition remove_key {A} (k : nat) (l : list (nat * A)) : list (nat * A) :=
  filter (fun p => negb (Nat.eqb (fst p) k)) l.

(** [setInterval(callback, 100)] and [clearInterval(id)]. *)
Definition setInterval (c : Closure) (s : State) : nat * State :=
  (nextTimer s,
   set_nextTimer (S (nextTimer s)) (set_intervals (intervals s ++ [(nextTimer s, c)]) s)).

Definition clearInterval (t : nat) (s : State) : State :=
  set_intervals (remove_key t (intervals s)) s.

(** [URL.createObjectURL(blob)] and [URL.revokeObjectURL(url)]. *)
Definition createObjectURL (b : Blob) (s : State) : nat * State :=
  (nextURL s,
   set_nextURL (S (nextURL s)) (set_urlStore ((nextURL s, b) :: urlStore s) s)).

Definition revokeObjectURL (u : nat) (s : State) : State :=
  set_urlStore (remove_key u (urlStore s)) s.

Definition console_log (line : string) (s : State) : State :=
  set_console (line :: console s) s.

(** [stream.getTracks().forEach(track => track.stop())]. *)
Definition stopTracks (st : nat) (s : State) : State :=
  set_streams (update_nth st (map (fun _ => Ended)) (streams s)) s.

(** [recorder.stop()]: the recorder becomes inactive; its last
    [dataavailable] and its [stop] event are delivered later.  On a recorder
    that is already inactive the call changes nothing. *)
Definition mr_stop (r : nat) (s : State) : State :=
  set_recorders
    (update_nth r (fun m => {| mr_canvas := mr_canvas m; mr_state := Inactive |})
       (recorders s)) s.

(** ** The component's functions *)

(** [calculateDimensions].  The two numbers are kept in lowest terms, so
    that equal dimensions are equal records. *)
Definition responsiveDimensions (innerWidth : Z) : Dimensions :=
  let maxWidth := Qmin (inject_Z innerWidth - 40)%Q 800%Q in
  let aspectRatio := (4 / 3)%Q in
  let width := maxWidth in
  let height := (width / aspectRatio)%Q in
  {| width := Qred width; height := Qred height |}.

Definition calculateDimensions (s : State) : State :=
  set_videoDimensions (responsiveDimensions (innerWidth s)) s.

(** [startCamera], up to its [await]: [setError(null)], then the request to
    [getUserMedia] is pending. *)
Definition startCamera (s : State) : State := set_error None s.

(** [startCamera] after [getUserMedia] resolved with a stream of [n] live
    tracks. *)
Definition startCamera_resolved (n : nat) (s : State) : State :=
  let stream := length (streams s) in
  let s := set_streams (streams s ++ [repeat Live n]) s in
  let s := set_streamRef (Some stream) s in
  if mounted s then set_cameraReady true s else s.

(** [startCamera] after [getUserMedia] rejected. *)
Definition startCamera_rejected (s : State) : State :=
  let s := console_log "Error accessing camera:"%string s in
  set_error
    (Some "Unable to access camera. Please ensure camera permissions are granted."%string)
    s.

(** The effect [if (modelsLoaded) startCamera()], which depends on
    [modelsLoaded] and on [startCamera], itself recreated whenever
    [videoDimensions] is set.  It only issues a request whose settlement is
    an event of its own, so its body runs within the step that changes its
    dependencies. *)
Definition cameraEffect (s : State) : State :=
  if modelsLoaded s then startCamera s else s.

(** [loadModels], up to its [await]. *)
Definition loadModels (s : State) : State := set_error None s.

(** [loadModels] after both models loaded. *)
Definition loadModels_resolved (s : State) : State :=
  let changed := negb (modelsLoaded s) in
  let s := set_modelsLoaded true s in
  let s := console_log "Face detection models loaded successfully"%string s in
  if changed then cameraEffect s else s.

(** [loadModels] after a model failed to load. *)
Definition loadModels_rejected (s : State) : State :=
  let s := console_log "Error loading models:"%string s in
  set_error
    (Some "Failed to load face detection models. Please ensure model files are in the /public/models directory."%string)
    s.

(** [faceapi.createCanvasFromMedia(video)]: a new canvas.  Its size and what
    it shows are replaced by [matchDimensions] before anything reads
    them. *)
Definition createCanvasFromMedia : Canvas :=
  {| cv_width := 300; cv_height := 150; cv_ops := [] |}.

(** [setupCanvas], as created in a render whose [videoDimensions] was
    [dims]: a fresh canvas replaces the overlay's child and is sized from
    [dims]. *)
Definition setupCanvas (dims : Dimensions) (s : State) : option nat * State :=
  if negb (mounted s) then (None, s)
  else
    let canvas := length (canvases s) in
    let s :=
      set_canvases
        (canvases s ++ [matchDimensions createCanvasFromMedia dims]) s in
    let s := set_canvasChild (Some canvas) s in
    (Some canvas, s).

(** [startFaceDetection], as created in the render that the listener [l]
    closes over; it arms the detection timer. *)
Definition startFaceDetection (l : Listener) (s : State) : State :=
  match setupCanvas (pl_dims l) s with
  | (None, s) => s
  | (Some canvas, s) =>
      let s :=
        match detectionIntervalRef s with
        | Some t => clearInterval t s
        | None => s
        end in
      let (t, s) :=
        setInterval
          {| cl_canvas := canvas; cl_modelsLoaded := pl_modelsLoaded l;
             cl_dims := pl_dims l |} s in
      set_detectionIntervalRef (Some t) s
  end.

(** One firing of the detection timer [t], up to the [await] on the
    detector. *)
Definition detectionTick (t : nat) (s : State) : State :=
  match lookup t (intervals s) with
  | None => s
  | Some c =>
      if negb (mounted s) || negb (cl_modelsLoaded c) then s
      else set_inflight (inflight s ++ [c]) s
  end.

(** How the awaited detector call of a cycle ends. *)
Inductive InferenceOutcome :=
| Detected (detections : list Detection)
| InferenceThrew.

Definition update_canvas (k : nat) (f : Canvas -> Canvas) (s : State) : State :=
  set_canvases (update_nth k f (canvases s)) s.

(** The rest of the cycle [i], after its [await].  What throws inside the
    [try] block, the detector or [resizeResults], is caught and logged. *)
Definition detectionResume (i : nat) (o : InferenceOutcome) (s : State) : State :=
  match nth_error (inflight s) i with
  | None => s
  | Some c =>
      let s := set_inflight (remove_nth i (inflight s)) s in
      match o with
      | Detected detections =>
          let s := set_faceDetected (0 <? length detections) s in
          match resizeResults detections (cl_dims c) with
          | Some resizedDetections =>
              let s :=
                update_canvas (cl_canvas c)
                  (clearRect 0 0 (width (cl_dims c)) (height (cl_dims c))) s in
              if 0 <? length resizedDetections then
                let s :=
                  update_canvas (cl_canvas c)
                    (drawDetections resizedDetections) s in
                update_canvas (cl_canvas c)
                  (drawFaceLandmarks resizedDetections) s
              else s
          | None => console_log "Face detection error:"%string s
          end
      | InferenceThrew => console_log "Face detection error:"%string s
      end
  end.

(** Where [startRecording] can leave its [try] block. *)
Inductive StartOutcome :=
| StartOk
| CaptureStreamThrew
| ConstructorThrew
| StartThrew.

(** [recorder.ondataavailable]. *)
Definition ondataavailable (data : Blob) (s : State) : State :=
  if 0 <? size data then set_recordedChunks (recordedChunks s ++ [data]) s
  else s.

(** [cleanup], as created in a render whose [videoURL] was [url]. *)
Definition cleanup (url : option nat) (s : State) : State :=
  let s :=
    match detectionIntervalRef s with
    | Some t => clearInterval t s
    | None => s
    end in
  let s :=
    match streamRef s with
    | Some st => stopTracks st s
    | None => s
    end in
  match url with
  | Some u => revokeObjectURL u s
  | None => s
  end.

(** The effect that registers [handlePlay], [useEffect(..., [modelsLoaded,
    cameraReady, startFaceDetection])]: the listener of the previous run is
    removed and the one of the render being flushed is added. *)
Definition playEffect (s : State) : State :=
  set_playListener
    {| pl_modelsLoaded := modelsLoaded s; pl_cameraReady := cameraReady s;
       pl_dims := videoDimensions s |} s.

(** The mount effect, [useEffect(..., [calculateDimensions, loadModels,
    cleanup])].  Of its dependencies only [cleanup] ever changes, and it
    changes exactly when [videoURL] does.  React then runs the destructor of
    the previous run, which calls the [cleanup] of that earlier render, and
    the body again; the body's [calculateDimensions] recreates
    [startCamera], so the camera effect follows. *)
Definition mountEffect (s : State) : State :=
  if option_nat_eqb (effectVideoURL s) (videoURL s) then s
  else
    let s := cleanup (effectVideoURL s) s in
    let s := calculateDimensions s in
    let s := loadModels s in
    let s := cameraEffect s in
    set_effectVideoURL (videoURL s) s.

(** The effects of the latest render run: the play listener is the one of
    that render, and the mount effect runs again if [videoURL] differs from
    the one it last ran with.  The dimensions that the mount effect sets
    reach the listener with the effects of the render that follows. *)
Definition flushPassiveEffects (s : State) : State :=
  mountEffect (playEffect s).

(** [setVideoURL(url)]: the new value is shown, and the effects that depend
    on it run, when React has rendered. *)
Definition setVideoURL (url : nat) (s : State) : State :=
  set_videoURL (Some url) s.

(** [recorder.onstop]. *)
Definition onstop (s : State) : State :=
  let blob := newBlob (recordedChunks s) "video/webm"%string in
  let (url, s) := createObjectURL blob s in
  let s := setVideoURL url s in
  set_recordingTime 0 s.

(** [startRecording]. *)
Definition startRecording (o : StartOutcome) (s : State) : State :=
  match (if mounted s then canvasChild s else None) with
  | None => set_error (Some "Canvas not ready for recording"%string) s
  | Some canvas =>
      let failed s :=
        set_error (Some "Failed to start recording"%string)
          (console_log "Recording error:"%string s) in
      match o with
      | CaptureStreamThrew | ConstructorThrew => failed s
      | StartThrew =>
          let recorder := length (recorders s) in
          let s :=
            set_recorders
              (recorders s ++ [{| mr_canvas := canvas; mr_state := Inactive |}]) s in
          let s := set_recorderRef (Some recorder) s in
          let s := set_recordedChunks [] s in
          failed s
      | StartOk =>
          let recorder := length (recorders s) in
          let s :=
            set_recorders
              (recorders s ++ [{| mr_canvas := canvas; mr_state := Recording |}]) s in
          let s := set_recorderRef (Some recorder) s in
          let s := set_recordedChunks [] s in
          let s := set_recording true s in
          let s := set_error None s in
          console_log "Recording started"%string s
      end
  end.

(** [stopRecording]. *)
Definition stopRecording (s : State) : State :=
  match recorderRef s with
  | Some r =>
      if recording s then
        let s := mr_stop r s in
        let s := set_recording false s in
        console_log "Recording stopped"%string s
      else s
  | None => s
  end.

(** [handlePlay], the listener for the video's [play] event, as registered
    by the play effect when it last ran. *)
Definition handlePlay (s : State) : State :=
  let l := playListener s in
  if pl_modelsLoaded l && pl_cameraReady l then startFaceDetection l s else s.

(** [handleResize], the listener for the window's [resize] event, followed
    by the camera effect that the new [videoDimensions] triggers. *)
Definition handleResize (w : Z) (s : State) : State :=
  let s := set_innerWidth w s in
  let s := calculateDimensions s in
  cameraEffect s.

(** The recording timer: [setRecordingTime(prev => prev + 1)], armed only
    while [recording]. *)
Definition recordingTimerTick (s : State) : State :=
  if recording s then set_recordingTime (recordingTime s + 1) s else s.

(** ** Mounting, events and teardown *)

(** The first render and its effects.  The play listener registered by
    that render has seen neither flag and the initial 640 by 480. *)
Definition initialState (w : Z) : State :=
  {| recording := false; videoURL := None; modelsLoaded := false;
     cameraReady := false; error := None; faceDetected := false;
     recordingTime := 0;
     videoDimensions := {| width := 640%Q; height := 480%Q |};
     mounted := true; canvasChild := None; recorderRef := None;
     recordedChunks := []; detectionIntervalRef := None; streamRef := None;
     canvases := []; recorders := []; intervals := []; nextTimer := 1;
     inflight := []; streams := []; urlStore := []; nextURL := 0;
     console := []; innerWidth := w; effectVideoURL := None;
     playListener :=
       {| pl_modelsLoaded := false; pl_cameraReady := false;
          pl_dims := {| width := 640%Q; height := 480%Q |} |} |}.

Definition mount (w : Z) : State :=
  cameraEffect (loadModels (calculateDimensions (initialState w))).

(** What the browser and React can deliver to a mounted component.  The two
    buttons are rendered as the JSX renders them: Start only while
    [recording] is false, and disabled until the models and the camera are
    ready; Stop only while [recording] is true.  [VideoPlay] is the [play]
    event of a video that has loaded; on one that has not,
    [createCanvasFromMedia] throws and the event changes nothing.
    [FlushEffects] stands for React having rendered the state as it is and
    running the effects of that render; any number of other events can come
    before it. *)
Inductive Event :=
| ModelsLoaded (ok : bool)
| CameraResult (tracks : option nat)
| VideoPlay
| Resize (w : Z)
| Tick (t : nat)
| InferenceDone (i : nat) (o : InferenceOutcome)
| ClickStart (o : StartOutcome)
| ClickStop
| DataAvailable (r : nat) (data : Blob)
| RecorderStopped (r : nat)
| Second
| FlushEffects.

Definition handle (e : Event) (s : State) : State :=
  match e with
  | ModelsLoaded ok =>
      if ok then loadModels_resolved s else loadModels_rejected s
  | CameraResult (Some n) => startCamera_resolved n s
  | CameraResult None => startCamera_rejected s
  | VideoPlay => handlePlay s
  | Resize w => handleResize w s
  | Tick t => detectionTick t s
  | InferenceDone i o => detectionResume i o s
  | ClickStart o =>
      if recording s then s
      else if negb (modelsLoaded s) || negb (cameraReady s) then s
      else startRecording o s
  | ClickStop => if recording s then stopRecording s else s
  | DataAvailable r data =>
      if r <? length (recorders s) then ondataavailable data s else s
  | RecorderStopped r =>
      if r <? length (recorders s) then onstop s else s
  | Second => recordingTimerTick s
  | FlushEffects => flushPassiveEffects s
  end.

Definition run (events : list Event) (s : State) : State :=
  fold_left (fun s e => handle e s) events s.

Definition reachable (s : State) : Prop :=
  exists w events, s = run events (mount w).

(** Unmounting: the DOM refs are detached and the destructor of the mount
    effect calls the [cleanup] of the render that effect last ran for.  A
    render whose effects are still to run is the event [FlushEffects]
    before the unmount. *)
Definition unmount (s : State) : State :=
  let s := set_mounted false s in
  cleanup (effectVideoURL s) s.

(** ** Observations *)

Definition liveHandles (s : State) : list nat := map fst (urlStore s).

Definition isRecording (m : MediaRecorder) : bool :=
  match mr_state m with Recording => true | Inactive => false end.

Definition activeRecorders (s : State) : nat :=
  length (filter isRecording (recorders s)).

Definition overlay (s : State) : option Canvas :=
  match canvasChild s with
  | Some k => nth_error (canvases s) k
  | None => None
  end.

(** ** Invariants *)

(** While [recording] is true the recorder in [recorderRef] is the only one
    recording; while it is false none is. *)
Definition session_ok (s : State) : Prop :=
  if recording s then
    activeRecorders s = 1 /\
    exists r m, recorderRef s = Some r /\ nth_error (recorders s) r = Some m /\
                isRecording m = true
  else activeRecorders s = 0.

(** What one cycle leaves on a canvas it has cleared. *)
Definition painted (ds : list Detection) : list CanvasOp :=
  if 0 <? length ds then [OpDrawDetections ds; OpDrawFaceLandmarks ds] else [].

(** The clear and draw steps of a cycle, as one function of the canvas. *)
Definition redraw (dims : Dimensions) (ds : list Detection) (cv : Canvas)
  : Canvas :=
  let cv := clearRect 0 0 (width dims) (height dims) cv in
  if 0 <? length ds then drawFaceLandmarks ds (drawDetections ds cv) else cv.

(** The timers left once [startFaceDetection] has cleared the one it
    held. *)
Definition armed (s : State) : list (nat * Closure) :=
  match detectionIntervalRef s with
  | Some t => remove_key t (intervals s)
  | None => intervals s
  end.

(** What a cycle that got [detections] does to its canvas: nothing when
    [resizeResults] throws, and otherwise the clear and the draw. *)
Definition cycle (dims : Dimensions) (detections : list Detection)
           (cv : Canvas) : Canvas :=
  match resizeResults detections dims with
  | Some resizedDetections => redraw dims resizedDetections cv
  | None => cv
  end.

(** Every canvas shows what a single cycle painted, or nothing. *)
Definition ops_ok (s : State) : Prop :=
  forall cv, In cv (canvases s) -> exists ds, cv_ops cv = painted ds.

(** A canvas that [matchDimensions] sized from [dims]. *)
Definition sized (dims : Dimensions) (cv : Canvas) : Prop :=
  cv_width cv = canvasSize 300 (width dims) /\
  cv_height cv = canvasSize 150 (height dims).

(** A closure is in step with its canvas when the canvas exists and was
    sized from the dimensions the closure captured. *)
Definition closure_ok (cs : list Canvas) (c : Closure) : Prop :=
  exists cv, nth_error cs (cl_canvas c) = Some cv /\ sized (cl_dims c) cv.

Definition closures_ok (s : State) : Prop :=
  (forall t c, In (t, c) (intervals s) -> closure_ok (canvases s) c) /\
  (forall c, In c (inflight s) -> closure_ok (canvases s) c).

(** Every live detection timer is the one held in [detectionIntervalRef]. *)
Definition timers_ok (s : State) : Prop :=
  forall t c, In (t, c) (intervals s) -> detectionIntervalRef s = Some t.

(** The handle shown in the download link. *)
Definition held (s : State) : list nat :=
  match videoURL s with Some u => [u] | None => [] end.

(** The handles left once a [cleanup] that closes over [url] has run. *)
Definition revoked (url : option nat) (live : list nat) : list nat :=
  match url with
  | Some u => filter (fun x => negb (x =? u)) live
  | None => live
  end.

(** Handles are numbered as they are created, and the one in [videoURL] is
    live. *)
Definition handles_ok (s : State) : Prop :=
  (forall u, In u (liveHandles s) -> u < nextURL s) /\
  (forall u, videoURL s = Some u -> In u (liveHandles s)) /\
  (forall u, effectVideoURL s = Some u -> u < nextURL s).

(** The play listener never sees a flag that the state does not have, and
    once a canvas exists it has seen both. *)
Definition listener_ok (s : State) : Prop :=
  (pl_modelsLoaded (playListener s) = true -> modelsLoaded s = true) /\
  (pl_cameraReady (playListener s) = true -> cameraReady s = true) /\
  (canvases s <> [] ->
   pl_modelsLoaded (playListener s) = true /\
   pl_cameraReady (playListener s) = true).

(** A recording can only have been started on a mounted component whose
    overlay holds a canvas. *)
Definition canvas_ok (s : State) : Prop :=
  mounted s = true /\ (recording s = true -> canvasChild s <> None).

(** The events that may fall between a session's start and its stop
    notification: no other start, and data only from the recorder [r]. *)
Definition within_session (r : nat) (e : Event) : bool :=
  match e with
  | ClickStart _ => false
  | DataAvailable r' _ => r' =? r
  | _ => true
  end.

(** The segments an event sequence delivers, in order of arrival. *)
Fixpoint segments (events : list Event) : list Blob :=
  match events with
  | [] => []
  | DataAvailable _ data :: rest => data :: segments rest
  | _ :: rest => segments rest
  end.

(** [event.data.size > 0]. *)
Definition nonEmpty (b : Blob) : bool := 0 <? size b.

(** ** Sample runs *)

Definition frameData : Blob :=
  {| blob_bytes := [Byte.x1a; Byte.x45; Byte.xdf; Byte.xa3];
     blob_type := "video/webm"%string |}.

Definition emptyData : Blob :=
  {| blob_bytes := []; blob_type := "video/webm"%string |}.

Definition secondData : Blob :=
  {| blob_bytes := [Byte.x42; Byte.x86]; blob_type := "video/webm"%string |}.

(** A face found in a video frame of 512 by 256, and the same face on an
    800 by 600 display. *)
Definition face : Detection :=
  {| imageDims := {| width := 512%Q; height := 256%Q |};
     box := {| box_x := 128%Q; box_y := 32%Q; box_width := 256%Q;
               box_height := 128%Q |};
     landmarks := [{| px := 192%Q; py := 64%Q |}; {| px := 320%Q; py := 64%Q |}];
     score := (9 # 10)%Q |}.

Definition faceOnDisplay : Detection :=
  {| imageDims := {| width := 800%Q; height := 600%Q |};
     box := {| box_x := 200%Q; box_y := 75%Q; box_width := 400%Q;
               box_height := 300%Q |};
     landmarks := [{| px := 300%Q; py := 150%Q |}; {| px := 500%Q; py := 150%Q |}];
     score := (9 # 10)%Q |}.

(** Models loaded and camera granted, but the video has not started
    playing: the Start control is enabled and the overlay is empty. *)
Definition untilCameraGranted : list Event :=
  [ModelsLoaded true; CameraResult (Some 1)].

Definition cameraGranted : State := run untilCameraGranted (mount 1024).

(** The effects of that render have run: the play listener has seen both
    flags and the 800 by 600 display. *)
Definition untilListening : list Event := untilCameraGranted ++ [FlushEffects].

Definition listening : State := run untilListening (mount 1024).

(** The video playing: detection runs on an 800 by 600 overlay. *)
Definition untilPlaying : list Event := untilListening ++ [VideoPlay].

Definition playing : State := run untilPlaying (mount 1024).

(** A first session, started from [playing]. *)
Definition untilFirstSession : list Event :=
  untilPlaying ++ [ClickStart StartOk].

Definition firstSession : State := run untilFirstSession (mount 1024).

(** The first session stopped, its artifact produced and the effects
    flushed; then a second session recorded and stopped, its stop
    notification still to come. *)
Definition untilSecondStopping : list Event :=
  untilFirstSession ++
  [DataAvailable 0 frameData; ClickStop; RecorderStopped 0; FlushEffects;
   ClickStart StartOk; DataAvailable 1 frameData; ClickStop].

Definition secondStopping : State := run untilSecondStopping (mount 1024).

(** The second stop notification delivered, the effects not yet flushed. *)
Definition secondArtifact : State :=
  run (untilSecondStopping ++ [RecorderStopped 1]) (mount 1024).

(** The effects of the render that shows the second artifact have run. *)
Definition untilSecondSettled : list Event :=
  untilSecondStopping ++ [RecorderStopped 1; FlushEffects].

Definition secondSettled : State := run untilSecondSettled (mount 1024).

(** A detection cycle awaiting its inference, over an overlay that the
    cycle before painted with one face. *)
Definition untilCycling : list Event :=
  untilPlaying ++ [Tick 1; InferenceDone 0 (Detected [face]); Tick 1].

Definition cycling : State := run untilCycling (mount 1024).

(** What the cycles of [playing] close over. *)
Definition playingClosure : Closure :=
  {| cl_canvas := 0; cl_modelsLoaded := true;
     cl_dims := responsiveDimensions 1024 |}.

(** The size of the canvas in the overlay, if there is one. *)
Definition overlaySize (s : State) : option (Z * Z) :=
  option_map (fun cv => (cv_width cv, cv_height cv)) (overlay s).

(** Both sessions stopped before either stop notification is handled, then
    both notifications, then the effects of the render that follows. *)
Definition untilBothArtifacts : list Event :=
  untilFirstSession ++
  [DataAvailable 0 frameData; ClickStop; ClickStart StartOk;
   DataAvailable 1 frameData; ClickStop; RecorderStopped 0; RecorderStopped 1;
   FlushEffects].

Definition bothArtifacts : State := run untilBothArtifacts (mount 1024).

(** Camera access granted a second time, after a resize asked for it
    again. *)
Definition untilRegranted : list Event :=
  untilCameraGranted ++ [Resize 900; CameraResult (Some 1)].

Definition regranted : State := run untilRegranted (mount 1024).

(** A cycle awaiting its inference while the video plays again. *)
Definition untilRestartedInFlight : list Event :=
  untilPlaying ++ [Tick 1; VideoPlay].

Definition restartedInFlight : State := run untilRestartedInFlight (mount 1024).

(** A window 30 pixels wide: the display is -10 by -7.5.  The play listener
    has seen it, and then a cycle awaits its inference. *)
Definition narrowListening : State := run untilListening (mount 30).

Definition untilNarrowCycling : list Event := untilPlaying ++ [Tick 1].

Definition narrowCycling : State := run untilNarrowCycling (mount 30).

(** The second session started before the stop notification of the first,
    whose recorder then delivers its last segment. *)
Definition untilOverlapped : list Event :=
  untilFirstSession ++
  [DataAvailable 0 frameData; ClickStop; ClickStart StartOk;
   DataAvailable 0 secondData].

Definition overlapped : State := run untilOverlapped (mount 1024).

(** What reaches the component during the first session. *)
Definition sessionEvents : list Event :=
  [DataAvailable 0 frameData; DataAvailable 0 emptyData; Tick 1; ClickStop;
   DataAvailable 0 frameData].


(** ** The status line and the elapsed time *)

(** Both capability gates are open. *)
Definition ready (s : State) : bool := modelsLoaded s && cameraReady s.

(** The state of a component that has not started anything: no timer, no
    canvas, no recorder, no artifact. *)
Definition idle (s : State) : Prop :=
  intervals s = [] /\ inflight s = [] /\ canvases s = [] /\
  canvasChild s = None /\ recorders s = [] /\ recorderRef s = None /\
  recording s = false /\ recordedChunks s = [] /\ videoURL s = None /\
  urlStore s = [] /\ effectVideoURL s = None /\ faceDetected s = false /\
  recordingTime s = 0.

(** The firings of the recording timer in an event sequence. *)
Definition seconds_in (events : list Event) : nat :=
  length (filter (fun e => match e with Second => true | _ => false end) events).

(** Events that neither start nor stop a session nor deliver a stop
    notification. *)
Definition keeps_session (e : Event) : bool :=
  match e with
  | ClickStart _ | ClickStop | RecorderStopped _ => false
  | _ => true
  end.

(** [n.toString()] for a natural number. *)
Definition toString (n : nat) : string :=
  NilEmpty.string_of_uint (Nat.to_uint n).

(** [s.padStart(targetLength, pad)] for a pad of one character. *)
Definition padStart (targetLength : nat) (pad : ascii) (s : string) : string :=
  (string_of_list_ascii (repeat pad (targetLength - String.length s)) ++ s)%string.

(** [formatTime]. *)
Definition formatTime (seconds : nat) : string :=
  let mins := seconds / 60 in
  let secs := seconds mod 60 in
  (toString mins ++ ":" ++ padStart 2 "0"%char (toString secs))%string.

(** The character of a decimal digit. *)
Definition digit (k : nat) : ascii := ascii_of_nat (48 + k).

(** ** Further invariants *)

(** The stream in [streamRef] is one of those granted. *)
Definition stream_held (s : State) : Prop :=
  forall st, streamRef s = Some st -> st < length (streams s).

(** Every artifact in the URL store is a WebM blob. *)
Definition blobs_ok (s : State) : Prop :=
  Forall (fun p => blob_type (snd p) = "video/webm"%string) (urlStore s).

(** Recorders and the overlay refer to canvases that exist. *)
Definition canvas_refs_ok (s : State) : Prop :=
  (forall m, In m (recorders s) -> mr_canvas m < length (canvases s)) /\
  (forall k, canvasChild s = Some k -> k < length (canvases s)).

(** The chunk buffer holds no empty segment. *)
Definition chunks_ok (s : State) : Prop :=
  Forall (fun b => nonEmpty b = true) (recordedChunks s).

(** ** Further sample runs *)

(** Models loaded, camera access denied. *)
Definition untilCameraDenied : list Event :=
  [ModelsLoaded true; CameraResult None].

Definition cameraDenied : State := run untilCameraDenied (mount 1024).

(** The video played a second time: detection was started twice. *)
Definition untilRestarted : list Event := untilPlaying ++ [VideoPlay].

Definition restarted : State := run untilRestarted (mount 1024).

(** Three seconds into a session, with data and a detection tick between the
    firings of the recording timer. *)
Definition threeSeconds : list Event :=
  [Second; DataAvailable 0 frameData; Second; Tick 1; Second].

(** The first session stopped, its stop notification still to come; the
    detection timer is running. *)
Definition untilFirstStopping : list Event :=
  untilFirstSession ++ [DataAvailable 0 frameData; ClickStop].

Definition firstStopping : State := run untilFirstStopping (mount 1024).

(** ** Lemmas on the host tables *)

Section Tables.
Context {A : Type}.

Lemma nth_error_split_at (l : list A) (n : nat) (a : A) :
  nth_error l n = Some a -> l = firstn n l ++ a :: skipn (S n) l.
Proof.
  revert n; induction l as [|x l IH]; intros [|n] H; simpl in *;
    try discriminate.
  - now inversion H.
  - f_equal. now apply IH.
Qed.

Lemma length_firstn_nth (l : list A) (n : nat) (a : A) :
  nth_error l n = Some a -> length (firstn n l) = n.
Proof.
  intros H. rewrite length_firstn. apply Nat.min_l.
  apply Nat.lt_le_incl, nth_error_Some. now rewrite H.
Qed.

Lemma nth_error_update_nth_same (l : list A) (n : nat) (f : A -> A) :
  nth_error (update_nth n f l) n = option_map f (nth_error l n).
Proof.
  unfold update_nth. destruct (nth_error l n) as [a|] eqn:H; simpl.
  - rewrite nth_error_app2; rewrite (length_firstn_nth _ _ _ H); [|lia].
    now rewrite Nat.sub_diag.
  - exact H.
Qed.

Lemma nth_error_update_nth_other (l : list A) (n k : nat) (f : A -> A) :
  k <> n -> nth_error (update_nth n f l) k = nth_error l k.
Proof.
  intros Hk. unfold update_nth.
  destruct (nth_error l n) as [a|] eqn:H; [|reflexivity].
  rewrite (nth_error_split_at _ _ _ H) at 3.
  pose proof (length_firstn_nth _ _ _ H) as Hlen.
  destruct (Nat.lt_ge_cases k n) as [Hlt|Hge].
  - rewrite !nth_error_app1 by lia. reflexivity.
  - rewrite !nth_error_app2 by lia. rewrite Hlen.
    destruct (k - n) as [|d] eqn:Hd; [lia|reflexivity].
Qed.

Lemma update_nth_app (l1 l2 : list A) (a : A) (f : A -> A) :
  update_nth (length l1) f (l1 ++ a :: l2) = l1 ++ f a :: l2.
Proof.
  unfold update_nth.
  rewrite nth_error_app2, Nat.sub_diag by lia.
  change (nth_error (a :: l2) 0) with (Some a). cbv iota.
  rewrite firstn_app, firstn_all, Nat.sub_diag, firstn_O, app_nil_r.
  rewrite skipn_app, skipn_all2 by lia.
  replace (S (length l1) - length l1) with 1 by lia. reflexivity.
Qed.

Lemma update_nth_compose (l : list A) (n : nat) (f g : A -> A) :
  update_nth n g (update_nth n f l) = update_nth n (fun a => g (f a)) l.
Proof.
  destruct (nth_error l n) as [a|] eqn:H.
  - pose proof (length_firstn_nth _ _ _ H) as Hlen.
    rewrite (nth_error_split_at _ _ _ H).
    set (l1 := firstn n l) in *. set (l2 := skipn (S n) l).
    rewrite <- Hlen. now rewrite !update_nth_app.
  - unfold update_nth. rewrite H. now rewrite H.
Qed.

Lemma length_update_nth (l : list A) (n : nat) (f : A -> A) :
  length (update_nth n f l) = length l.
Proof.
  unfold update_nth. destruct (nth_error l n) as [a|] eqn:H; [|reflexivity].
  rewrite (nth_error_split_at _ _ _ H) at 3.
  now rewrite !length_app.
Qed.

Lemma update_nth_id (l : list A) (n : nat) (f : A -> A) :
  (forall a, f a = a) -> update_nth n f l = l.
Proof.
  intros Hf. unfold update_nth.
  destruct (nth_error l n) as [a|] eqn:H; [|reflexivity].
  rewrite Hf. symmetry. now apply nth_error_split_at.
Qed.

Lemma In_update_nth (l : list A) (n : nat) (f : A -> A) (b : A) :
  In b (update_nth n f l) ->
  In b l \/ exists a, nth_error l n = Some a /\ b = f a.
Proof.
  unfold update_nth. destruct (nth_error l n) as [a|] eqn:H; [|now left].
  intros Hin. apply in_app_or in Hin. destruct Hin as [Hin|[Hin|Hin]].
  - left. rewrite <- (firstn_skipn n l). apply in_or_app. now left.
  - right. exists a. split; [reflexivity|now symmetry].
  - left. rewrite <- (firstn_skipn (S n) l). apply in_or_app. now right.
Qed.

Lemma In_remove_nth (l : list A) (n : nat) (a : A) :
  In a (remove_nth n l) -> In a l.
Proof.
  unfold remove_nth. intros Hin. apply in_app_or in Hin.
  destruct Hin as [Hin|Hin].
  - rewrite <- (firstn_skipn n l). apply in_or_app. now left.
  - rewrite <- (firstn_skipn (S n) l). apply in_or_app. now right.
Qed.

Lemma lookup_In (k : nat) (l : list (nat * A)) (a : A) :
  lookup k l = Some a -> In (k, a) l.
Proof.
  induction l as [|[k' a'] l IH]; simpl; [discriminate|].
  destruct (Nat.eqb_spec k k') as [->|_].
  - intros H; inversion H; now left.
  - intros H; right; now apply IH.
Qed.

Lemma In_remove_key (k : nat) (l : list (nat * A)) (p : nat * A) :
  In p (remove_key k l) -> In p l /\ fst p <> k.
Proof.
  unfold remove_key. rewrite filter_In. intros [Hin Hk]. split; [exact Hin|].
  destruct (Nat.eqb_spec (fst p) k); [discriminate|assumption].
Qed.

Lemma remove_key_all (k : nat) (l : list (nat * A)) :
  (forall p, In p l -> fst p = k) -> remove_key k l = [].
Proof.
  induction l as [|p l IH]; intros H; simpl; [reflexivity|].
  rewrite (H p (or_introl eq_refl)), Nat.eqb_refl. simpl.
  apply IH. intros q Hq. apply H. now right.
Qed.

Lemma map_fst_remove_key (k : nat) (l : list (nat * A)) :
  map fst (remove_key k l) = filter (fun u => negb (Nat.eqb u k)) (map fst l).
Proof.
  induction l as [|p l IH]; simpl; [reflexivity|].
  destruct (negb (Nat.eqb (fst p) k)); simpl; now rewrite IH.
Qed.
End Tables.

(** ** Reachability *)

Lemma run_snoc (events : list Event) (e : Event) (s : State) :
  run (events ++ [e]) s = handle e (run events s).
Proof. unfold run. now rewrite fold_left_app. Qed.

Lemma run_app (ev1 ev2 : list Event) (s : State) :
  run (ev1 ++ ev2) s = run ev2 (run ev1 s).
Proof. unfold run. now rewrite fold_left_app. Qed.

Lemma reachable_mount (w : Z) : reachable (mount w).
Proof. now exists w, []. Qed.

Lemma reachable_handle (e : Event) (s : State) :
  reachable s -> reachable (handle e s).
Proof.
  intros (w & events & ->). exists w, (events ++ [e]). now rewrite run_snoc.
Qed.

Lemma reachable_run (events : list Event) (s : State) :
  reachable s -> reachable (run events s).
Proof.
  intros (w & ev0 & ->). exists w, (ev0 ++ events). now rewrite run_app.
Qed.

(** An invariant holds in every reachable state when it holds after
    mounting and every event preserves it. *)
Lemma reachable_invariant (P : State -> Prop) :
  (forall w, P (mount w)) ->
  (forall e s, P s -> P (handle e s)) ->
  forall s, reachable s -> P s.
Proof.
  intros Hmount Hstep s (w & events & ->).
  induction events as [|e events IH] using rev_ind.
  - apply Hmount.
  - rewrite run_snoc. now apply Hstep.
Qed.

(** ** Proof automation for handlers *)

Arguments responsiveDimensions : simpl never.
Arguments resizeResults : simpl never.
Arguments Nat.ltb : simpl never.
Arguments option_nat_eqb : simpl never.
Arguments remove_key : simpl never.
Arguments update_nth : simpl never.
Arguments remove_nth : simpl never.
Arguments canvasSize : simpl never.

Ltac unfold_component :=
  repeat progress
    unfold handle, loadModels_resolved, loadModels_rejected, cameraEffect,
      startCamera_resolved, startCamera_rejected, startCamera, loadModels,
      handlePlay, startFaceDetection, setupCanvas, handleResize,
      calculateDimensions, detectionTick, detectionResume, update_canvas,
      startRecording, stopRecording, mr_stop, ondataavailable, onstop,
      setVideoURL, flushPassiveEffects, mountEffect, playEffect, cleanup,
      recordingTimerTick,
      createObjectURL, revokeObjectURL, setInterval, clearInterval,
      stopTracks, console_log.

Ltac clear_props :=
  repeat match goal with
         | H : ?T |- _ => match type of T with Prop => clear H end
         end.

Ltac open_state :=
  repeat match goal with s : State |- _ => destruct s end; cbn.

Ltac split_cases :=
  repeat (cbn;
          match goal with
          | |- context [match ?x with _ => _ end] =>
              lazymatch x with
              | context [match _ with _ => _ end] => fail
              | _ => destruct x eqn:?
              end
          end);
  cbn.

Ltac conj_split := repeat match goal with |- _ /\ _ => split end.

(** A projection that a handler leaves alone. *)
Ltac unchanged :=
  clear_props; unfold_component; open_state; split_cases; congruence.

(** ** One active recorder *)

Lemma session_ok_frame (s s' : State) :
  recording s' = recording s -> recorderRef s' = recorderRef s ->
  recorders s' = recorders s -> session_ok s -> session_ok s'.
Proof.
  unfold session_ok, activeRecorders. intros -> -> ->. trivial.
Qed.

Lemma active_after_stop (l : list MediaRecorder) (r : nat) (m : MediaRecorder) :
  nth_error l r = Some m -> isRecording m = true ->
  S (length (filter isRecording
       (update_nth r (fun m => {| mr_canvas := mr_canvas m; mr_state := Inactive |}) l)))
  = length (filter isRecording l).
Proof.
  intros H Hm. unfold update_nth. rewrite H.
  rewrite (nth_error_split_at _ _ _ H) at 3.
  rewrite !filter_app, !length_app. simpl. rewrite Hm. simpl. lia.
Qed.

Lemma session_ok_handle (e : Event) (s : State) :
  session_ok s -> session_ok (handle e s).
Proof.
  intros H.
  destruct e;
    try (apply (session_ok_frame s); [unchanged..|exact H]).
  - (* ClickStart *)
    unfold handle. destruct (recording s) eqn:Hrec; [exact H|].
    destruct (negb (modelsLoaded s) || negb (cameraReady s)); [exact H|].
    unfold session_ok, activeRecorders in *. rewrite Hrec in H.
    unfold startRecording.
    destruct (if mounted s then canvasChild s else None) as [canvas|];
      [destruct o|]; cbn; rewrite ?Hrec, ?filter_app, ?length_app, ?H; cbn;
      try reflexivity.
    split; [reflexivity|].
    exists (length (recorders s)), {| mr_canvas := canvas; mr_state := Recording |}.
    rewrite nth_error_app2, Nat.sub_diag by lia. now cbn.
  - (* ClickStop *)
    unfold handle. destruct (recording s) eqn:Hrec; [|exact H].
    unfold session_ok, activeRecorders in *. rewrite Hrec in H.
    destruct H as (Hone & r & m & Hr & Hm & Hact).
    unfold stopRecording. rewrite Hr, Hrec. cbn.
    pose proof (active_after_stop _ _ _ Hm Hact) as Hs. lia.
Qed.

Lemma session_ok_reachable (s : State) : reachable s -> session_ok s.
Proof.
  apply reachable_invariant; [reflexivity|apply session_ok_handle].
Qed.

(** ** The overlay and the closures that draw on it *)

(** [resizeResults] returns for positive dimensions only. *)
Lemma resizeResults_Some (ds rs : list Detection) (dims : Dimensions) :
  resizeResults ds dims = Some rs ->
  (0 < width dims)%Q /\ (0 < height dims)%Q /\ rs = map (forSize dims) ds.
Proof.
  unfold resizeResults.
  destruct (Qle_bool (width dims) 0) eqn:Ew; [discriminate|].
  destruct (Qle_bool (height dims) 0) eqn:Eh; [discriminate|].
  cbn. intros H. inversion H. conj_split; [| |reflexivity];
    apply Qnot_le_lt; intros Hle; apply Qle_bool_iff in Hle; congruence.
Qed.

Lemma resizeResults_positive (ds : list Detection) (dims : Dimensions) :
  (0 < width dims)%Q -> (0 < height dims)%Q ->
  resizeResults ds dims = Some (map (forSize dims) ds).
Proof.
  intros Hw Hh. unfold resizeResults.
  destruct (Qle_bool (width dims) 0) eqn:Ew.
  { apply Qle_bool_iff in Ew. now apply Qle_not_lt in Ew. }
  destruct (Qle_bool (height dims) 0) eqn:Eh.
  { apply Qle_bool_iff in Eh. now apply Qle_not_lt in Eh. }
  reflexivity.
Qed.

Lemma resizeResults_None (ds : list Detection) (dims : Dimensions) :
  ~ ((0 < width dims)%Q /\ (0 < height dims)%Q) ->
  resizeResults ds dims = None.
Proof.
  intros H. destruct (resizeResults ds dims) as [rs|] eqn:E; [|reflexivity].
  apply resizeResults_Some in E. tauto.
Qed.

(** A canvas is never larger than the number its size was assigned from,
    when that number is not negative. *)
Lemma canvasSize_le (default : Z) (x : Q) :
  (default <= 2147483647)%Z -> (0 <= x)%Q ->
  (inject_Z (canvasSize default x) <= x)%Q.
Proof.
  intros Hd Hx. unfold canvasSize, toUint32.
  destruct x as [n d]. unfold Qle in *. cbn in *.
  assert (Hn : (0 <= n)%Z) by lia.
  rewrite Z.quot_div_nonneg by lia.
  pose proof (Z.mul_div_le n (Zpos d) ltac:(lia)) as Hq.
  pose proof (Z.div_pos n (Zpos d) Hn ltac:(lia)) as Hq0.
  pose proof (Z.mod_le (n / Zpos d) 4294967296 Hq0 ltac:(lia)) as Hm.
  pose proof (Z.mod_pos_bound (n / Zpos d) 4294967296 ltac:(lia)) as Hm0.
  set (t := (n / Zpos d)%Z) in *. set (m := (t mod 4294967296)%Z) in *.
  destruct (Z.ltb_spec 2147483647 m); nia.
Qed.

Lemma covers_sized (dims : Dimensions) (cv : Canvas) :
  (0 <= width dims)%Q -> (0 <= height dims)%Q -> sized dims cv ->
  covers 0 0 (width dims) (height dims) cv = true.
Proof.
  intros Hw Hh [Ew Eh]. unfold covers. rewrite Ew, Eh.
  assert (Hmin : forall q : Q, Qle_bool (Qmin 0 (0 + q)) 0 = true).
  { intros q. apply Qle_bool_iff, Q.le_min_l. }
  assert (Hmax : forall (d : Z) (q : Q),
             (d <= 2147483647)%Z -> (0 <= q)%Q ->
             Qle_bool (inject_Z (canvasSize d q)) (Qmax 0 (0 + q)) = true).
  { intros d q Hd Hq. apply Qle_bool_iff.
    apply Qle_trans with (y := q); [now apply canvasSize_le|].
    apply Qle_trans with (y := (0 + q)%Q); [|apply Q.le_max_r].
    rewrite Qplus_0_l. apply Qle_refl. }
  rewrite !Hmin, !Hmax by (trivial; lia). reflexivity.
Qed.

Lemma redraw_size (dims : Dimensions) (ds : list Detection) (cv : Canvas) :
  cv_width (redraw dims ds cv) = cv_width cv /\
  cv_height (redraw dims ds cv) = cv_height cv.
Proof.
  unfold redraw, clearRect.
  destruct (0 <? length ds), (covers _ _ _ _ _); split; reflexivity.
Qed.

(** The clear of a cycle erases the canvas it was sized for, so the cycle
    leaves what it painted and nothing else. *)
Lemma redraw_synced (dims : Dimensions) (ds : list Detection) (cv : Canvas) :
  (0 <= width dims)%Q -> (0 <= height dims)%Q -> sized dims cv ->
  redraw dims ds cv = set_ops (painted ds) cv.
Proof.
  intros Hw Hh Hs. unfold redraw, clearRect, painted.
  rewrite (covers_sized _ _ Hw Hh Hs).
  destruct (0 <? length ds); reflexivity.
Qed.

Lemma cycle_size (dims : Dimensions) (ds : list Detection) (cv : Canvas) :
  cv_width (cycle dims ds cv) = cv_width cv /\
  cv_height (cycle dims ds cv) = cv_height cv.
Proof.
  unfold cycle. destruct (resizeResults ds dims); [apply redraw_size|].
  now split.
Qed.

(** A cycle leaves its canvas as it was when [resizeResults] throws, and
    otherwise showing the resized result alone. *)
Lemma cycle_synced (dims : Dimensions) (ds : list Detection) (cv : Canvas) :
  sized dims cv ->
  cycle dims ds cv =
  match resizeResults ds dims with
  | Some rs => set_ops (painted rs) cv
  | None => cv
  end.
Proof.
  intros Hs. unfold cycle.
  destruct (resizeResults ds dims) as [rs|] eqn:E; [|reflexivity].
  apply resizeResults_Some in E. destruct E as (Hw & Hh & _).
  apply redraw_synced; [now apply Qlt_le_weak|now apply Qlt_le_weak|exact Hs].
Qed.

Lemma canvases_detected (i : nat) (ds : list Detection) (c : Closure) (s : State) :
  nth_error (inflight s) i = Some c ->
  canvases (detectionResume i (Detected ds) s) =
  update_nth (cl_canvas c) (cycle (cl_dims c) ds) (canvases s).
Proof.
  intros H. unfold detectionResume, update_canvas, cycle, redraw. rewrite H.
  destruct (resizeResults ds (cl_dims c)) as [rs|].
  - destruct (0 <? length rs) eqn:E; cbn;
      rewrite ?update_nth_compose; reflexivity.
  - cbn. symmetry. apply update_nth_id. reflexivity.
Qed.

Lemma inflight_resume (i : nat) (o : InferenceOutcome) (c : Closure) (s : State) :
  nth_error (inflight s) i = Some c ->
  inflight (detectionResume i o s) = remove_nth i (inflight s).
Proof.
  intros H. unfold detectionResume. rewrite H.
  destruct o; unfold_component; split_cases; reflexivity.
Qed.

Lemma detectionResume_idle (i : nat) (o : InferenceOutcome) (s : State) :
  nth_error (inflight s) i = None -> detectionResume i o s = s.
Proof. intros H. unfold detectionResume. now rewrite H. Qed.

Lemma startFaceDetection_unmounted (l : Listener) (s : State) :
  mounted s = false -> startFaceDetection l s = s.
Proof. intros H. unfold startFaceDetection, setupCanvas. now rewrite H. Qed.

Lemma startFaceDetection_mounted (l : Listener) (s : State) :
  mounted s = true ->
  canvases (startFaceDetection l s) =
    canvases s ++ [matchDimensions createCanvasFromMedia (pl_dims l)] /\
  canvasChild (startFaceDetection l s) = Some (length (canvases s)) /\
  intervals (startFaceDetection l s) =
    armed s ++
    [(nextTimer s,
      {| cl_canvas := length (canvases s);
         cl_modelsLoaded := pl_modelsLoaded l; cl_dims := pl_dims l |})] /\
  detectionIntervalRef (startFaceDetection l s) = Some (nextTimer s) /\
  inflight (startFaceDetection l s) = inflight s /\
  videoDimensions (startFaceDetection l s) = videoDimensions s /\
  playListener (startFaceDetection l s) = playListener s.
Proof.
  destruct s. cbn. intros ->.
  unfold startFaceDetection, setupCanvas, armed. cbn.
  destruct detectionIntervalRef0; cbn; repeat split; reflexivity.
Qed.

Lemma handle_VideoPlay (s : State) :
  pl_modelsLoaded (playListener s) = true ->
  pl_cameraReady (playListener s) = true ->
  handle VideoPlay s = startFaceDetection (playListener s) s.
Proof. intros Hm Hc. unfold handle, handlePlay. now rewrite Hm, Hc. Qed.

(** A [play] event either does nothing or, through a listener that saw
    both flags, starts detection on a mounted component. *)
Lemma handle_VideoPlay_cases (s : State) :
  handle VideoPlay s = s \/
  mounted s = true /\
  pl_modelsLoaded (playListener s) = true /\
  pl_cameraReady (playListener s) = true /\
  handle VideoPlay s = startFaceDetection (playListener s) s.
Proof.
  unfold handle, handlePlay.
  destruct (pl_modelsLoaded (playListener s)); [|now left].
  destruct (pl_cameraReady (playListener s)); [|now left].
  destruct (mounted s) eqn:Hm; [now right|left].
  now apply startFaceDetection_unmounted.
Qed.

Lemma In_armed (s : State) (p : nat * Closure) :
  In p (armed s) -> In p (intervals s).
Proof.
  unfold armed. destruct (detectionIntervalRef s); [|trivial].
  intros Hin. now apply In_remove_key in Hin.
Qed.

Lemma closure_ok_app (cs more : list Canvas) (c : Closure) :
  closure_ok cs c -> closure_ok (cs ++ more) c.
Proof.
  intros (cv & Hn & Hd). exists cv. split; [|exact Hd].
  rewrite nth_error_app1; [exact Hn|]. apply nth_error_Some. now rewrite Hn.
Qed.

Lemma flush_unfold (s : State) :
  flushPassiveEffects s =
  if option_nat_eqb (effectVideoURL s) (videoURL s) then playEffect s
  else
    let s' :=
      cameraEffect
        (loadModels
           (calculateDimensions (cleanup (effectVideoURL s) (playEffect s)))) in
    set_effectVideoURL (videoURL s') s'.
Proof. reflexivity. Qed.

Lemma closure_ok_update (cs : list Canvas) (k : nat) (f : Canvas -> Canvas)
      (c : Closure) :
  (forall cv, cv_width (f cv) = cv_width cv /\ cv_height (f cv) = cv_height cv) ->
  closure_ok cs c -> closure_ok (update_nth k f cs) c.
Proof.
  intros Hf (cv & Hn & Hw & Hh).
  destruct (Nat.eq_dec (cl_canvas c) k) as [<-|Hk].
  - exists (f cv). rewrite nth_error_update_nth_same, Hn.
    split; [reflexivity|]. unfold sized.
    destruct (Hf cv) as [-> ->]. now split.
  - exists cv. now rewrite nth_error_update_nth_other.
Qed.

Lemma closures_ok_weaken (s s' : State) :
  (forall p, In p (intervals s') -> In p (intervals s)) ->
  (forall c, In c (inflight s') -> In c (inflight s)) ->
  (forall c, closure_ok (canvases s) c -> closure_ok (canvases s') c) ->
  closures_ok s -> closures_ok s'.
Proof.
  intros Hi Hf Hc [H1 H2]. split.
  - intros t c Hin. apply Hc, (H1 t), Hi, Hin.
  - intros c Hin. apply Hc, H2, Hf, Hin.
Qed.

Lemma closures_ok_frame (s s' : State) :
  intervals s' = intervals s -> inflight s' = inflight s ->
  canvases s' = canvases s -> closures_ok s -> closures_ok s'.
Proof. unfold closures_ok. intros -> -> ->. trivial. Qed.

(** [cleanup] and the effect flush only ever remove timers. *)
Lemma intervals_cleanup (u : option nat) (s : State) (p : nat * Closure) :
  In p (intervals (cleanup u s)) -> In p (intervals s).
Proof.
  unfold_component. open_state. split_cases; trivial; intros Hin;
    now apply In_remove_key in Hin.
Qed.

Lemma intervals_flush (s : State) (p : nat * Closure) :
  In p (intervals (flushPassiveEffects s)) -> In p (intervals s).
Proof.
  rewrite flush_unfold.
  destruct (option_nat_eqb _ _); [trivial|].
  intros Hin. apply (intervals_cleanup (effectVideoURL s)).
  revert Hin. unfold_component. open_state. split_cases; trivial.
Qed.

Lemma closures_ok_flush (s : State) :
  closures_ok s -> closures_ok (flushPassiveEffects s).
Proof.
  apply closures_ok_weaken.
  - apply intervals_flush.
  - intros c. replace (inflight (flushPassiveEffects s)) with (inflight s)
      by (symmetry; unchanged). trivial.
  - intros c. replace (canvases (flushPassiveEffects s)) with (canvases s)
      by (symmetry; unchanged). trivial.
Qed.

Lemma closures_ok_handle (e : Event) (s : State) :
  closures_ok s -> closures_ok (handle e s).
Proof.
  intros H.
  destruct e;
    try (apply (closures_ok_frame s); [unchanged..|exact H]).
  - (* VideoPlay *)
    destruct (handle_VideoPlay_cases s) as [->|(Hm & _ & _ & ->)]; [exact H|].
    destruct (startFaceDetection_mounted (playListener s) s Hm)
      as (Hc & _ & Hi & _ & Hf & _).
    destruct H as [H1 H2]. split.
    + intros t c. rewrite Hc, Hi. intros Hin.
      apply in_app_or in Hin. destruct Hin as [Hin|[Hin|[]]].
      * apply closure_ok_app, (H1 t), In_armed, Hin.
      * inversion Hin; subst. eexists. cbn.
        rewrite nth_error_app2, Nat.sub_diag by lia.
        split; [reflexivity|]. split; reflexivity.
    + intros c. rewrite Hc, Hf. intros Hin. apply closure_ok_app, H2, Hin.
  - (* Tick *)
    unfold handle, detectionTick.
    destruct (lookup t (intervals s)) as [c|] eqn:Hl; [|exact H].
    destruct (negb (mounted s) || negb (cl_modelsLoaded c)); [exact H|].
    destruct H as [H1 H2]. split; cbn; [exact H1|].
    intros c' Hin. apply in_app_or in Hin. destruct Hin as [Hin|[<-|[]]].
    + now apply H2.
    + apply (H1 t), lookup_In, Hl.
  - (* InferenceDone *)
    unfold handle.
    destruct (nth_error (inflight s) i) as [c|] eqn:Hi;
      [|now rewrite detectionResume_idle].
    apply (closures_ok_weaken s); [| | |exact H].
    + replace (intervals (detectionResume i o s)) with (intervals s)
        by (symmetry; unchanged). trivial.
    + intros c'. rewrite (inflight_resume _ o _ _ Hi). apply In_remove_nth.
    + intros c'. destruct o.
      * rewrite (canvases_detected _ _ _ _ Hi). apply closure_ok_update.
        intros cv. apply cycle_size.
      * replace (canvases (detectionResume i InferenceThrew s))
          with (canvases s) by (symmetry; unchanged). trivial.
  - (* FlushEffects *)
    now apply closures_ok_flush.
Qed.

Lemma closures_ok_reachable (s : State) : reachable s -> closures_ok s.
Proof.
  apply reachable_invariant; [|apply closures_ok_handle].
  intros w.
  unfold closures_ok, mount, cameraEffect, loadModels, calculateDimensions.
  cbn. split; intros; contradiction.
Qed.

Lemma ops_ok_handle (e : Event) (s : State) :
  closures_ok s -> ops_ok s -> ops_ok (handle e s).
Proof.
  intros Hc H.
  assert (Hframe : canvases (handle e s) = canvases s -> ops_ok (handle e s)).
  { unfold ops_ok. intros ->. exact H. }
  destruct e; try (apply Hframe; unchanged).
  - (* VideoPlay *)
    destruct (handle_VideoPlay_cases s) as [->|(Hm & _ & _ & ->)]; [exact H|].
    destruct (startFaceDetection_mounted (playListener s) s Hm) as (Hcs & _).
    intros cv. rewrite Hcs. intros Hin.
    apply in_app_or in Hin. destruct Hin as [Hin|[<-|[]]].
    + now apply H.
    + now exists [].
  - (* InferenceDone *)
    unfold handle.
    destruct (nth_error (inflight s) i) as [c|] eqn:Hi;
      [|now rewrite detectionResume_idle].
    destruct o; [|apply Hframe; unchanged].
    intros cv. rewrite (canvases_detected _ _ _ _ Hi). intros Hin.
    apply In_update_nth in Hin. destruct Hin as [Hin|(cv0 & Hn & ->)].
    + now apply H.
    + destruct Hc as [_ Hc]. destruct (Hc c) as (cv1 & Hn1 & Hd).
      { eapply nth_error_In, Hi. }
      rewrite Hn in Hn1. inversion Hn1; subst cv1.
      rewrite (cycle_synced _ _ _ Hd).
      destruct (resizeResults detections (cl_dims c)) as [rs|].
      * now exists rs.
      * apply H. eapply nth_error_In, Hn.
Qed.

Lemma ops_ok_reachable (s : State) : reachable s -> ops_ok s.
Proof.
  intros Hreach.
  apply (reachable_invariant (fun s => closures_ok s /\ ops_ok s));
    [| |exact Hreach].
  - intros w. split; [apply closures_ok_reachable, reachable_mount|].
    intros cv [].
  - intros e s0 [Hc Ho]. split.
    + now apply closures_ok_handle.
    + now apply ops_ok_handle.
Qed.

(** ** One detection timer *)

Lemma armed_nil (s : State) : timers_ok s -> armed s = [].
Proof.
  unfold timers_ok, armed. intros H.
  destruct (detectionIntervalRef s) as [t0|] eqn:E.
  - apply remove_key_all. intros [t c] Hin. cbn.
    specialize (H t c Hin). congruence.
  - destruct (intervals s) as [|[t c] l]; [reflexivity|].
    specialize (H t c (or_introl eq_refl)). discriminate.
Qed.

Lemma intervals_cleanup_armed (u : option nat) (s : State) :
  intervals (cleanup u s) = armed s.
Proof. unfold armed. unchanged. Qed.

Lemma timers_ok_weaken (s s' : State) :
  (forall p, In p (intervals s') -> In p (intervals s)) ->
  detectionIntervalRef s' = detectionIntervalRef s ->
  timers_ok s -> timers_ok s'.
Proof.
  unfold timers_ok. intros Hi -> H t c Hin. apply (H t c), Hi, Hin.
Qed.

Lemma timers_ok_handle (e : Event) (s : State) :
  timers_ok s -> timers_ok (handle e s).
Proof.
  intros H.
  assert (Hframe : intervals (handle e s) = intervals s ->
                   detectionIntervalRef (handle e s) = detectionIntervalRef s ->
                   timers_ok (handle e s)).
  { intros Hi Hr. apply (timers_ok_weaken s); [now rewrite Hi|exact Hr|exact H]. }
  destruct e; try (apply Hframe; unchanged).
  - (* VideoPlay *)
    destruct (handle_VideoPlay_cases s) as [->|(Hm & _ & _ & ->)]; [exact H|].
    destruct (startFaceDetection_mounted (playListener s) s Hm)
      as (_ & _ & Hi & Hr & _).
    intros t c. rewrite Hi, Hr, (armed_nil s H). cbn.
    intros [Hin|[]]. now inversion Hin.
  - (* FlushEffects *)
    apply (timers_ok_weaken s); [apply intervals_flush|unchanged|exact H].
Qed.

Lemma timers_ok_reachable (s : State) : reachable s -> timers_ok s.
Proof.
  apply reachable_invariant; [|apply timers_ok_handle].
  intros w t c. unfold mount, cameraEffect, loadModels, calculateDimensions.
  cbn. contradiction.
Qed.

(** ** Artifact handles *)

Lemma handles_ok_frame (s s' : State) :
  urlStore s' = urlStore s -> videoURL s' = videoURL s ->
  effectVideoURL s' = effectVideoURL s -> nextURL s' = nextURL s ->
  handles_ok s -> handles_ok s'.
Proof.
  unfold handles_ok, liveHandles. intros -> -> -> ->. trivial.
Qed.

Lemma option_nat_eqb_eq (a b : option nat) :
  option_nat_eqb a b = true <-> a = b.
Proof.
  destruct a as [x|], b as [y|]; unfold option_nat_eqb;
    try (split; congruence).
  rewrite Nat.eqb_eq. split; congruence.
Qed.

Ltac eqb_cases :=
  repeat match goal with
         | |- context [Nat.eqb ?a ?b] => destruct (Nat.eqb_spec a b)
         end;
  cbn; try reflexivity; try lia; try congruence.

Lemma option_nat_eqb_refl (a : option nat) : option_nat_eqb a a = true.
Proof. now apply option_nat_eqb_eq. Qed.

Lemma In_revoked (url : option nat) (live : list nat) (u : nat) :
  In u (revoked url live) <-> In u live /\ url <> Some u.
Proof.
  unfold revoked. destruct url as [e|].
  - rewrite filter_In, negb_true_iff, Nat.eqb_neq. split.
    + intros [Hin Hne]. split; [exact Hin|congruence].
    + intros [Hin Hne]. split; [exact Hin|congruence].
  - split; [|tauto]. intros Hin. split; [exact Hin|discriminate].
Qed.

(** The effect flush, on the fields that concern handles: the mount effect
    revokes the handle it last ran with when [videoURL] has changed. *)
Lemma flush_handles (s : State) :
  liveHandles (flushPassiveEffects s) =
    (if option_nat_eqb (effectVideoURL s) (videoURL s) then liveHandles s
     else revoked (effectVideoURL s) (liveHandles s)) /\
  videoURL (flushPassiveEffects s) = videoURL s /\
  nextURL (flushPassiveEffects s) = nextURL s /\
  effectVideoURL (flushPassiveEffects s) = videoURL s.
Proof.
  unfold liveHandles, revoked. rewrite flush_unfold.
  destruct (option_nat_eqb (effectVideoURL s) (videoURL s)) eqn:E.
  - apply option_nat_eqb_eq in E. cbn. repeat split. exact E.
  - clear E. unfold_component. open_state.
    destruct effectVideoURL0, detectionIntervalRef0, streamRef0,
      modelsLoaded0; cbn; rewrite ?map_fst_remove_key; repeat split.
Qed.

(** A flush with nothing pending for the mount effect leaves the handles
    alone; otherwise it revokes the handle that effect last ran with, which
    is not the one in [videoURL]. *)
Lemma flush_live (s : State) :
  liveHandles (flushPassiveEffects s) =
    revoked (effectVideoURL s) (liveHandles s) \/
  effectVideoURL s = videoURL s /\
  liveHandles (flushPassiveEffects s) = liveHandles s.
Proof.
  destruct (flush_handles s) as (Fl & _). rewrite Fl.
  destruct (option_nat_eqb _ _) eqn:E; [right|now left].
  apply option_nat_eqb_eq in E. now split.
Qed.

Lemma handles_ok_flush (s : State) :
  handles_ok s -> handles_ok (flushPassiveEffects s).
Proof.
  intros (Hlive & Hv & He).
  destruct (flush_handles s) as (Fl & Fv & Fn & Fe).
  unfold handles_ok. rewrite Fl, Fv, Fn, Fe.
  destruct (option_nat_eqb (effectVideoURL s) (videoURL s)) eqn:E.
  - repeat split; auto.
  - apply not_true_iff_false in E. rewrite option_nat_eqb_eq in E.
    repeat split.
    + intros u Hin. apply In_revoked in Hin. now apply Hlive.
    + intros u Hu. apply In_revoked. split; [now apply Hv|congruence].
    + intros u Hu. now apply Hlive, Hv.
Qed.

(** [onstop] creates and exposes a handle and revokes none. *)
Lemma onstop_handles (s : State) :
  liveHandles (onstop s) = nextURL s :: liveHandles s /\
  videoURL (onstop s) = Some (nextURL s) /\
  effectVideoURL (onstop s) = effectVideoURL s /\
  nextURL (onstop s) = S (nextURL s) /\
  urlStore (onstop s) =
    (nextURL s, newBlob (recordedChunks s) "video/webm") :: urlStore s.
Proof. repeat split. Qed.

Lemma handles_ok_onstop (s : State) : handles_ok s -> handles_ok (onstop s).
Proof.
  intros (Hlive & Hv & He).
  destruct (onstop_handles s) as (Ol & Ov & Oe & On & _).
  unfold handles_ok. rewrite Ol, Ov, Oe, On. repeat split.
  - intros u [<-|Hin]; [lia|]. specialize (Hlive u Hin). lia.
  - intros u Hu. left. congruence.
  - intros u Hu. specialize (He u Hu). lia.
Qed.

Lemma handles_ok_handle (e : Event) (s : State) :
  handles_ok s -> handles_ok (handle e s).
Proof.
  intros H.
  destruct e; try (apply (handles_ok_frame s); [unchanged..|exact H]).
  - unfold handle. destruct (r <? length (recorders s)); [|exact H].
    now apply handles_ok_onstop.
  - now apply handles_ok_flush.
Qed.

Lemma handles_ok_reachable (s : State) : reachable s -> handles_ok s.
Proof.
  apply reachable_invariant; [|apply handles_ok_handle].
  intros w. repeat split; cbn; intros; try discriminate; contradiction.
Qed.

(** ** The play listener *)

Lemma listener_ok_handle (e : Event) (s : State) :
  listener_ok s -> listener_ok (handle e s).
Proof.
  unfold listener_ok. intros (Hm & Hc & Hk).
  assert (Hweak : playListener (handle e s) = playListener s ->
                  length (canvases (handle e s)) = length (canvases s) ->
                  (modelsLoaded s = true -> modelsLoaded (handle e s) = true) ->
                  (cameraReady s = true -> cameraReady (handle e s) = true) ->
                  listener_ok (handle e s)).
  { unfold listener_ok. intros -> Hlen Fm Fc. repeat split; auto;
      apply Hk; intros E; rewrite E in Hlen;
      now apply length_zero_iff_nil in Hlen. }
  assert (Hframe : playListener (handle e s) = playListener s ->
                   canvases (handle e s) = canvases s ->
                   (modelsLoaded s = true -> modelsLoaded (handle e s) = true) ->
                   (cameraReady s = true -> cameraReady (handle e s) = true) ->
                   listener_ok (handle e s)).
  { intros Hl Hcs. apply Hweak; [exact Hl|now rewrite Hcs]. }
  destruct e;
    try (apply Hframe; clear Hm Hc Hk Hweak Hframe; unfold_component;
         open_state; split_cases; congruence).
  - (* VideoPlay *)
    destruct (handle_VideoPlay_cases s) as [->|(Hmt & Em & Ec & ->)];
      [exact (conj Hm (conj Hc Hk))|].
    destruct (startFaceDetection_mounted (playListener s) s Hmt)
      as (_ & _ & _ & _ & _ & _ & Hl).
    rewrite Hl.
    replace (modelsLoaded (startFaceDetection (playListener s) s))
      with (modelsLoaded s) by (symmetry; unchanged).
    replace (cameraReady (startFaceDetection (playListener s) s))
      with (cameraReady s) by (symmetry; unchanged).
    auto.
  - (* InferenceDone *)
    unfold handle.
    destruct (nth_error (inflight s) i) as [c|] eqn:Hi;
      [|rewrite detectionResume_idle by exact Hi;
        exact (conj Hm (conj Hc Hk))].
    apply Hweak; try unchanged. unfold handle. destruct o.
    + now rewrite (canvases_detected _ _ _ _ Hi), length_update_nth.
    + f_equal. unchanged.
  - (* FlushEffects *)
    replace (playListener (handle FlushEffects s))
      with {| pl_modelsLoaded := modelsLoaded s;
              pl_cameraReady := cameraReady s;
              pl_dims := videoDimensions s |} by (symmetry; unchanged).
    replace (modelsLoaded (handle FlushEffects s)) with (modelsLoaded s)
      by (symmetry; unchanged).
    replace (cameraReady (handle FlushEffects s)) with (cameraReady s)
      by (symmetry; unchanged).
    replace (canvases (handle FlushEffects s)) with (canvases s)
      by (symmetry; unchanged).
    cbn. split; [trivial|]. split; [trivial|].
    intros Hne. destruct (Hk Hne). split; auto.
Qed.

Lemma listener_ok_reachable (s : State) : reachable s -> listener_ok s.
Proof.
  apply reachable_invariant; [|apply listener_ok_handle].
  intros w. unfold listener_ok. cbn. repeat split; congruence.
Qed.

(** ** Recording needs the overlay *)

Lemma canvas_ok_handle (e : Event) (s : State) :
  canvas_ok s -> canvas_ok (handle e s).
Proof.
  unfold canvas_ok.
  destruct e; unfold_component; open_state; split_cases;
    intuition (try congruence; try discriminate).
Qed.

Lemma canvas_ok_reachable (s : State) : reachable s -> canvas_ok s.
Proof.
  apply reachable_invariant; [|apply canvas_ok_handle].
  intros w. split; [reflexivity|discriminate].
Qed.

(** ** Sessions and their segments *)

Lemma recorders_length_handle (e : Event) (s : State) :
  (forall o, e <> ClickStart o) ->
  length (recorders (handle e s)) = length (recorders s).
Proof.
  intros He.
  destruct e; try (f_equal; unchanged).
  - now destruct (He o).
  - unfold handle, stopRecording, mr_stop.
    destruct (recording s), (recorderRef s); cbn;
      rewrite ?length_update_nth; reflexivity.
Qed.

Lemma chunks_handle (r : nat) (e : Event) (s : State) :
  within_session r e = true -> r < length (recorders s) ->
  recordedChunks (handle e s) =
  recordedChunks s ++ filter nonEmpty (segments [e]).
Proof.
  intros He Hr.
  destruct e; try discriminate; cbn [segments filter];
    rewrite ?app_nil_r; try unchanged.
  cbn in He. apply Nat.eqb_eq in He. subst r0.
  apply Nat.ltb_lt in Hr. unfold handle, ondataavailable, nonEmpty.
  rewrite Hr. destruct (0 <? size data); cbn; now rewrite ?app_nil_r.
Qed.

Lemma segments_app (ev1 ev2 : list Event) :
  segments (ev1 ++ ev2) = segments ev1 ++ segments ev2.
Proof.
  induction ev1 as [|e ev1 IH]; [reflexivity|].
  destruct e; cbn; now rewrite ?IH.
Qed.

Lemma chunks_run (r : nat) (events : list Event) (s : State) :
  forallb (within_session r) events = true -> r < length (recorders s) ->
  recordedChunks (run events s) =
    recordedChunks s ++ filter nonEmpty (segments events) /\
  length (recorders (run events s)) = length (recorders s).
Proof.
  induction events as [|e events IH] using rev_ind; intros Hall Hr.
  - cbn. now rewrite app_nil_r.
  - rewrite forallb_app in Hall. apply andb_true_iff in Hall.
    destruct Hall as [Hall He]. cbn in He. rewrite andb_true_r in He.
    destruct (IH Hall Hr) as [Hc Hl].
    rewrite run_snoc, segments_app, filter_app, app_assoc, <- Hc.
    split.
    + apply chunks_handle with (r := r); [exact He|now rewrite Hl].
    + rewrite recorders_length_handle; [exact Hl|].
      intros o ->. discriminate.
Qed.

Lemma lookup_remove_key_other {A} (k e : nat) (l : list (nat * A)) :
  k <> e -> lookup k (remove_key e l) = lookup k l.
Proof.
  intros Hk. unfold remove_key.
  induction l as [|[k' a] l IH]; [reflexivity|]. cbn.
  destruct (Nat.eqb_spec k' e) as [->|Hne]; cbn.
  - destruct (Nat.eqb_spec k e); [contradiction|exact IH].
  - now rewrite IH.
Qed.

Lemma flush_urlStore (s : State) :
  urlStore (flushPassiveEffects s) =
  if option_nat_eqb (effectVideoURL s) (videoURL s) then urlStore s
  else match effectVideoURL s with
       | Some e => remove_key e (urlStore s)
       | None => urlStore s
       end.
Proof.
  rewrite flush_unfold.
  destruct (option_nat_eqb (effectVideoURL s) (videoURL s)); [reflexivity|].
  unfold_component. open_state.
  destruct effectVideoURL0, detectionIntervalRef0, streamRef0, modelsLoaded0;
    reflexivity.
Qed.

(** The blob behind the handle that [onstop] exposes. *)
Lemma onstop_artifact (s : State) :
  videoURL (onstop s) = Some (nextURL s) /\
  lookup (nextURL s) (urlStore (onstop s)) =
    Some (newBlob (recordedChunks s) "video/webm").
Proof.
  destruct (onstop_handles s) as (_ & Hv & _ & _ & Hu).
  split; [exact Hv|]. rewrite Hu. cbn. now rewrite Nat.eqb_refl.
Qed.

(** Segments of size zero add nothing to a concatenation. *)
Lemma concat_nonEmpty (parts : list Blob) :
  concat (map blob_bytes (filter nonEmpty parts)) =
  concat (map blob_bytes parts).
Proof.
  induction parts as [|b parts IH]; [reflexivity|]. cbn [filter].
  destruct (nonEmpty b) eqn:E; cbn [map concat]; rewrite IH; [reflexivity|].
  unfold nonEmpty, size in E. apply Nat.ltb_ge in E.
  destruct (blob_bytes b); [reflexivity|]. cbn in E. lia.
Qed.

(** ** Handlers on the fields the properties read *)

Lemma handle_RecorderStopped (r : nat) (s : State) :
  r < length (recorders s) -> handle (RecorderStopped r) s = onstop s.
Proof. intros H. apply Nat.ltb_lt in H. unfold handle. now rewrite H. Qed.

Lemma faceDetected_detected (i : nat) (ds : list Detection) (c : Closure)
      (s : State) :
  nth_error (inflight s) i = Some c ->
  faceDetected (detectionResume i (Detected ds) s) = (0 <? length ds).
Proof.
  intros H. unfold detectionResume. rewrite H.
  destruct (resizeResults ds (cl_dims c)) as [rs|]; [|reflexivity].
  destruct (0 <? length rs); reflexivity.
Qed.

(** A cycle whose inference returned acts on the canvas its timer captured,
    which was sized from the dimensions it captured. *)
Lemma cycle_redraw (i : nat) (ds : list Detection) (c : Closure) (s : State) :
  closures_ok s -> nth_error (inflight s) i = Some c ->
  exists cv,
    nth_error (canvases s) (cl_canvas c) = Some cv /\
    sized (cl_dims c) cv /\
    nth_error (canvases (handle (InferenceDone i (Detected ds)) s)) (cl_canvas c) =
      Some (cycle (cl_dims c) ds cv).
Proof.
  intros [_ Hc] Hi. destruct (Hc c) as (cv & Hn & Hd).
  { eapply nth_error_In, Hi. }
  exists cv. conj_split; [exact Hn|exact Hd|].
  unfold handle. rewrite (canvases_detected _ _ _ _ Hi).
  now rewrite nth_error_update_nth_same, Hn.
Qed.

Lemma cycle_positive (dims : Dimensions) (ds : list Detection) (cv : Canvas) :
  (0 < width dims)%Q -> (0 < height dims)%Q ->
  cycle dims ds cv = redraw dims (map (forSize dims) ds) cv.
Proof.
  intros Hw Hh. unfold cycle. now rewrite resizeResults_positive.
Qed.

Lemma streams_cleanup (u : option nat) (s : State) :
  streams (cleanup u s) =
  match streamRef s with
  | Some st => update_nth st (map (fun _ => Ended)) (streams s)
  | None => streams s
  end.
Proof. unchanged. Qed.

Lemma streams_flush (s : State) :
  streams (flushPassiveEffects s) = streams s \/
  streams (flushPassiveEffects s) = streams (cleanup None s).
Proof.
  rewrite flush_unfold.
  destruct (option_nat_eqb _ _); [now left|right]. unchanged.
Qed.

Lemma liveHandles_cleanup (u : option nat) (s : State) :
  liveHandles (cleanup u s) =
  match u with
  | Some v => filter (fun x => negb (x =? v)) (liveHandles s)
  | None => liveHandles s
  end.
Proof.
  unfold liveHandles. destruct u as [v|].
  - rewrite <- map_fst_remove_key. f_equal. unchanged.
  - f_equal. unchanged.
Qed.

Lemma unmount_fields (s : State) :
  intervals (unmount s) = armed s /\
  streams (unmount s) = streams (cleanup None s) /\
  liveHandles (unmount s) = revoked (effectVideoURL s) (liveHandles s) /\
  recorders (unmount s) = recorders s /\
  recording (unmount s) = recording s /\
  inflight (unmount s) = inflight s /\
  canvases (unmount s) = canvases s /\
  mounted (unmount s) = false.
Proof.
  unfold unmount. cbv zeta. conj_split.
  - now rewrite intervals_cleanup_armed.
  - now rewrite !streams_cleanup.
  - now rewrite liveHandles_cleanup.
  - unchanged.
  - unchanged.
  - unchanged.
  - unchanged.
  - unchanged.
Qed.

Lemma recorders_cleanup (u : option nat) (s : State) :
  recorders (cleanup u s) = recorders s.
Proof. unchanged. Qed.

Lemma recording_cleanup (u : option nat) (s : State) :
  recording (cleanup u s) = recording s.
Proof. unchanged. Qed.

Lemma recorders_flush (s : State) :
  recorders (flushPassiveEffects s) = recorders s.
Proof. unchanged. Qed.

Lemma recording_flush (s : State) :
  recording (flushPassiveEffects s) = recording s.
Proof. unchanged. Qed.

Lemma ended_twice (l : option MediaStream) :
  option_map (map (fun _ => Ended)) (option_map (map (fun _ : TrackState => Ended)) l)
  = option_map (map (fun _ => Ended)) l.
Proof. destruct l as [l|]; cbn; [|reflexivity]. now rewrite map_map. Qed.

(** * Properties *)

(** C1, as the code has it.  The stop notification of a session creates the
    new download handle and exposes it without releasing anything: every
    handle live before is still live beside it.  The one handle released
    afterwards, when the effects of the next render run, is the handle that
    the mount effect last ran with.  When that is the handle held before
    and no other was live, the exposed handle is then the only live one. *)
Theorem previous_handle_released_after_exposure (s : State) (r : nat) :
  reachable s -> r < length (recorders s) ->
  let s1 := handle (RecorderStopped r) s in
  let s2 := handle FlushEffects s1 in
  videoURL s1 = Some (nextURL s) /\
  ~ In (nextURL s) (liveHandles s) /\
  liveHandles s1 = nextURL s :: liveHandles s /\
  effectVideoURL s1 = effectVideoURL s /\
  videoURL s2 = Some (nextURL s) /\
  effectVideoURL s2 = Some (nextURL s) /\
  liveHandles s2 = nextURL s :: revoked (effectVideoURL s) (liveHandles s) /\
  (effectVideoURL s = videoURL s -> liveHandles s = held s ->
   liveHandles s2 = [nextURL s]).
Proof.
  intros Hreach Hr s1 s2. subst s1 s2.
  rewrite (handle_RecorderStopped _ _ Hr).
  destruct (handles_ok_reachable s Hreach) as (Hlive & Hv & He).
  destruct (onstop_handles s) as (Ol & Ov & Oe & _).
  destruct (flush_handles (onstop s)) as (Fl & Fv & _ & Fe).
  assert (Hfresh : ~ In (nextURL s) (liveHandles s)).
  { intros Hin. specialize (Hlive _ Hin). lia. }
  assert (Hl2 : liveHandles (flushPassiveEffects (onstop s)) =
                nextURL s :: revoked (effectVideoURL s) (liveHandles s)).
  { rewrite Fl, Ol, Ov, Oe.
    destruct (effectVideoURL s) as [e|] eqn:Ee; unfold option_nat_eqb;
      [|reflexivity].
    specialize (He e eq_refl).
    destruct (Nat.eqb_spec e (nextURL s)) as [E|E]; [lia|].
    cbn. destruct (Nat.eqb_spec (nextURL s) e) as [E'|E']; [lia|reflexivity]. }
  conj_split.
  - exact Ov.
  - exact Hfresh.
  - exact Ol.
  - exact Oe.
  - unfold handle. now rewrite Fv.
  - unfold handle. now rewrite Fe.
  - exact Hl2.
  - intros Heq Hheld. unfold handle. rewrite Hl2, Heq, Hheld.
    unfold held, revoked. destruct (videoURL s) as [v|]; cbn; [|reflexivity].
    now rewrite Nat.eqb_refl.
Qed.

(** C1 as stated fails.  When the second session's stop notification
    arrives, handle 0 of the first session is held; the handler exposes
    handle 1 and both are live.  And when both stop notifications are
    handled before React renders, handle 0 is never released: it is still
    live after the effects ran. *)
Lemma second_handle_exposed_beside_first :
  (liveHandles secondStopping = [0] /\
   videoURL secondStopping = Some 0 /\
   videoURL (handle (RecorderStopped 1) secondStopping) = Some 1 /\
   liveHandles (handle (RecorderStopped 1) secondStopping) = [1; 0]) /\
  (videoURL bothArtifacts = Some 1 /\
   effectVideoURL bothArtifacts = Some 1 /\
   liveHandles bothArtifacts = [1; 0] /\
   liveHandles (handle FlushEffects bothArtifacts) = [1; 0]).
Proof. vm_compute. repeat split. Qed.

(** C2, as the code has it.  A resize updates [videoDimensions] and nothing
    of the overlay or of the play listener.  The listener takes the
    dimensions of the display when the effects of a render run.  Each time
    detection starts the overlay is created anew, sized in whole pixels from
    the dimensions the listener holds, and the one timer left captures those
    same dimensions.  Every cycle rescales and clears with the dimensions
    its timer captured, those its canvas was sized from. *)
Theorem overlay_synced_at_detection_start (s : State) :
  reachable s ->
  (forall w,
     let s' := handle (Resize w) s in
     videoDimensions s' = responsiveDimensions w /\
     canvases s' = canvases s /\ canvasChild s' = canvasChild s /\
     intervals s' = intervals s /\ inflight s' = inflight s /\
     playListener s' = playListener s) /\
  (let s' := handle FlushEffects s in
   pl_dims (playListener s') = videoDimensions s /\
   canvases s' = canvases s /\ canvasChild s' = canvasChild s) /\
  (pl_modelsLoaded (playListener s) = true ->
   pl_cameraReady (playListener s) = true ->
   let s' := handle VideoPlay s in
   let dims := pl_dims (playListener s) in
   overlay s' =
     Some {| cv_width := canvasSize 300 (width dims);
             cv_height := canvasSize 150 (height dims); cv_ops := [] |} /\
   intervals s' =
     [(nextTimer s,
       {| cl_canvas := length (canvases s); cl_modelsLoaded := true;
          cl_dims := dims |})]) /\
  (forall t c, In (t, c) (intervals s) -> closure_ok (canvases s) c) /\
  (forall i c ds,
     nth_error (inflight s) i = Some c ->
     exists cv,
       nth_error (canvases s) (cl_canvas c) = Some cv /\
       cv_width cv = canvasSize 300 (width (cl_dims c)) /\
       cv_height cv = canvasSize 150 (height (cl_dims c)) /\
       ((0 < width (cl_dims c))%Q -> (0 < height (cl_dims c))%Q ->
        nth_error (canvases (handle (InferenceDone i (Detected ds)) s))
                  (cl_canvas c) =
          Some (redraw (cl_dims c) (map (forSize (cl_dims c)) ds) cv))).
Proof.
  intros Hreach.
  pose proof (closures_ok_reachable s Hreach) as Hcl.
  pose proof (timers_ok_reachable s Hreach) as Htm.
  destruct (canvas_ok_reachable s Hreach) as [Hm _].
  conj_split.
  - intros w s'. subst s'. conj_split; unchanged.
  - cbv zeta. conj_split; unchanged.
  - intros Hml Hcr s' dims. subst s' dims.
    rewrite (handle_VideoPlay _ Hml Hcr).
    destruct (startFaceDetection_mounted (playListener s) s Hm)
      as (Hc & Hk & Hi & _).
    unfold overlay. rewrite Hk, Hc, Hi, Hml, (armed_nil s Htm).
    rewrite nth_error_app2, Nat.sub_diag by lia. split; reflexivity.
  - apply Hcl.
  - intros i c ds Hi.
    destruct (cycle_redraw i ds c s Hcl Hi) as (cv & Hn & [Hw Hh] & Hres).
    exists cv. conj_split; try assumption.
    intros Hpw Hph. now rewrite Hres, cycle_positive.
Qed.

(** C2 as stated fails.  After a resize to an inner width of 500 the
    display is 460 wide while the overlay is still 800 by 600, and a [play]
    event that comes before the effects of the resized render have run
    creates an overlay of 800 by 600 again.  In a window 501 wide the
    display is 461 by 345.75 and the overlay created for it is 461 by
    345. *)
Lemma resize_leaves_overlay_behind :
  (overlaySize playing = Some (800, 600)%Z /\
   width (videoDimensions playing) = 800%Q /\
   overlaySize (handle (Resize 500) playing) = Some (800, 600)%Z /\
   width (videoDimensions (handle (Resize 500) playing)) = 460%Q) /\
  overlaySize (handle VideoPlay (handle (Resize 500) playing)) =
    Some (800, 600)%Z /\
  (videoDimensions (run untilPlaying (mount 501)) =
     {| width := 461%Q; height := (1383 # 4)%Q |} /\
   overlaySize (run untilPlaying (mount 501)) = Some (461, 345)%Z).
Proof. vm_compute. repeat split. Qed.

(** C3.  At most one recorder is recording in any state the component can
    reach: none while [recording] is false, and while it is true the Start
    control, the one caller of [startRecording], does nothing. *)
Theorem one_recorder_through_controls (s : State) :
  reachable s ->
  activeRecorders s <= 1 /\
  (recording s = false -> activeRecorders s = 0) /\
  (recording s = true -> forall o, handle (ClickStart o) s = s).
Proof.
  intros Hreach. pose proof (session_ok_reachable s Hreach) as H.
  unfold session_ok in H. destruct (recording s) eqn:Hrec.
  - destruct H as [H _]. conj_split; try lia; try discriminate.
    intros _ o. unfold handle. now rewrite Hrec.
  - conj_split; try lia; discriminate.
Qed.

(** C4.  While the overlay holds no canvas, [startRecording] only sets the
    error message: no recorder is created and [recording] stays false. *)
Theorem startRecording_surface_not_ready (s : State) (o : StartOutcome) :
  reachable s -> canvasChild s = None ->
  startRecording o s = set_error (Some "Canvas not ready for recording"%string) s /\
  error (startRecording o s) = Some "Canvas not ready for recording"%string /\
  recorders (startRecording o s) = recorders s /\
  recorderRef (startRecording o s) = recorderRef s /\
  recording (startRecording o s) = false.
Proof.
  intros Hreach Hc. destruct (canvas_ok_reachable s Hreach) as [_ Hrec].
  assert (Hs : startRecording o s =
               set_error (Some "Canvas not ready for recording"%string) s).
  { unfold startRecording. rewrite Hc. now destruct (mounted s). }
  rewrite Hs. conj_split; try reflexivity. cbn.
  destruct (recording s); [|reflexivity]. now destruct (Hrec eq_refl).
Qed.

(** C5, as the code has it.  Unmounting leaves no detection timer, ends
    every track of the stream held in [streamRef] and of no other stream,
    and revokes the handle that the mount effect last ran with and no other
    handle.  It does not touch the recorders. *)
Theorem unmount_releases_timer_camera_handle (s : State) :
  reachable s ->
  let s' := unmount s in
  intervals s' = [] /\
  (forall st, streamRef s = Some st ->
     nth_error (streams s') st =
     option_map (map (fun _ => Ended)) (nth_error (streams s) st)) /\
  (forall k, streamRef s <> Some k ->
     nth_error (streams s') k = nth_error (streams s) k) /\
  liveHandles s' = revoked (effectVideoURL s) (liveHandles s) /\
  (forall u, effectVideoURL s = Some u -> ~ In u (liveHandles s')) /\
  (forall u, In u (liveHandles s) -> effectVideoURL s <> Some u ->
     In u (liveHandles s')) /\
  recorders s' = recorders s /\
  recording s' = recording s.
Proof.
  intros Hreach s'. subst s'.
  destruct (unmount_fields s) as (Hi & Hs & Hl & Hr & Hrec & _).
  rewrite Hi, Hs, Hl, Hr, Hrec, streams_cleanup. conj_split; try reflexivity.
  - apply armed_nil, timers_ok_reachable, Hreach.
  - intros st ->. apply nth_error_update_nth_same.
  - intros k Hk. destruct (streamRef s) as [st|]; [|reflexivity].
    apply nth_error_update_nth_other. congruence.
  - intros u Hu Hin. apply In_revoked in Hin. tauto.
  - intros u Hin Hu. apply In_revoked. tauto.
Qed.

(** C5 as stated fails.  Unmounting during the first session leaves its
    recorder recording.  After camera access was granted twice, unmounting
    leaves the track of the first stream live.  And after two stop
    notifications that were handled before React rendered, unmounting
    leaves handle 0 live. *)
Lemma unmount_leaves_recorder_running :
  (activeRecorders firstSession = 1 /\
   activeRecorders (unmount firstSession) = 1 /\
   nth_error (recorders (unmount firstSession)) 0 =
     Some {| mr_canvas := 0; mr_state := Recording |}) /\
  (streams regranted = [[Live]; [Live]] /\
   streams (unmount regranted) = [[Live]; [Ended]]) /\
  (liveHandles bothArtifacts = [1; 0] /\
   liveHandles (unmount bothArtifacts) = [0]).
Proof. vm_compute. repeat split. Qed.

(** C6, as the code has it.  Every canvas shows what one cycle painted or
    nothing.  A cycle whose inference returned reaches its draw step when the
    dimensions its timer captured are positive; otherwise [resizeResults]
    throws and the cycle draws nothing.  A cycle that reaches it leaves, on
    the canvas its timer was created with, the boxes and landmarks of its own
    resized result and nothing else, whatever that canvas showed before.  It
    draws on no other canvas: that canvas is the overlay unless detection
    has been started again since, and then the overlay is left as it was. *)
Theorem cycle_overlay_shows_only_its_result
        (s : State) (i : nat) (c : Closure) (ds : list Detection) :
  reachable s -> nth_error (inflight s) i = Some c ->
  let s' := handle (InferenceDone i (Detected ds)) s in
  (forall cv, In cv (canvases s) -> exists shown, cv_ops cv = painted shown) /\
  exists cv,
    nth_error (canvases s) (cl_canvas c) = Some cv /\
    ((0 < width (cl_dims c))%Q -> (0 < height (cl_dims c))%Q ->
     nth_error (canvases s') (cl_canvas c) =
       Some {| cv_width := cv_width cv; cv_height := cv_height cv;
               cv_ops := painted (map (forSize (cl_dims c)) ds) |}) /\
    (~ ((0 < width (cl_dims c))%Q /\ (0 < height (cl_dims c))%Q) ->
     canvases s' = canvases s) /\
    (forall k, k <> cl_canvas c ->
       nth_error (canvases s') k = nth_error (canvases s) k) /\
    canvasChild s' = canvasChild s /\
    (canvasChild s = Some (cl_canvas c) ->
     overlay s' = nth_error (canvases s') (cl_canvas c)) /\
    (canvasChild s <> Some (cl_canvas c) -> overlay s' = overlay s).
Proof.
  intros Hreach Hi s'.
  pose proof (closures_ok_reachable s Hreach) as Hcl.
  split; [apply ops_ok_reachable, Hreach|].
  destruct (cycle_redraw i ds c s Hcl Hi) as (cv & Hn & Hsz & Hres).
  assert (Hk : canvasChild s' = canvasChild s) by (subst s'; unchanged).
  assert (Hcs : canvases s' =
                update_nth (cl_canvas c) (cycle (cl_dims c) ds) (canvases s)).
  { subst s'. unfold handle. apply (canvases_detected _ _ _ _ Hi). }
  assert (Hother : forall k, k <> cl_canvas c ->
            nth_error (canvases s') k = nth_error (canvases s) k).
  { intros k Hne. rewrite Hcs. now apply nth_error_update_nth_other. }
  exists cv. conj_split.
  - exact Hn.
  - intros Hw Hh. fold s' in Hres.
    rewrite Hres, (cycle_synced _ _ _ Hsz), resizeResults_positive by assumption.
    reflexivity.
  - intros Hneg. rewrite Hcs. apply update_nth_id. intros cv0.
    unfold cycle. now rewrite resizeResults_None.
  - exact Hother.
  - exact Hk.
  - intros E. unfold overlay. now rewrite Hk, E.
  - intros E. unfold overlay. rewrite Hk.
    destruct (canvasChild s) as [k|]; [|reflexivity].
    apply Hother. congruence.
Qed.

(** C6 as stated fails.  The video plays again while a cycle awaits its
    inference.  That cycle finds a face and paints it on the canvas its timer
    was created with; the overlay, by then another canvas, is empty after
    the cycle's draw step. *)
Lemma restarted_cycle_misses_overlay :
  nth_error (inflight restartedInFlight) 0 = Some playingClosure /\
  canvasChild restartedInFlight = Some 1 /\
  faceDetected (handle (InferenceDone 0 (Detected [face])) restartedInFlight)
    = true /\
  option_map cv_ops
    (nth_error
       (canvases (handle (InferenceDone 0 (Detected [face])) restartedInFlight))
       0) = Some (painted [faceOnDisplay]) /\
  option_map cv_ops
    (overlay (handle (InferenceDone 0 (Detected [face])) restartedInFlight))
    = Some [].
Proof. vm_compute. repeat split. Qed.

(** C7.  After a cycle whose inference returned, [faceDetected] is true
    exactly when the result is non-empty. *)
Theorem faceDetected_iff_result_nonempty
        (s : State) (i : nat) (c : Closure) (ds : list Detection) :
  nth_error (inflight s) i = Some c ->
  let s' := handle (InferenceDone i (Detected ds)) s in
  (faceDetected s' = true <-> ds <> []) /\
  (ds = [] -> faceDetected s' = false).
Proof.
  intros Hi s'. subst s'. unfold handle.
  rewrite (faceDetected_detected _ ds _ _ Hi).
  destruct ds as [|d ds]; cbn; split.
  - split; [discriminate|congruence].
  - reflexivity.
  - split; [discriminate|reflexivity].
  - discriminate.
Qed.


(** C9.  [stopRecording] while [recording] is false changes nothing, and a
    second [stopRecording] never adds to the first. *)
Theorem stopRecording_idle_noop (s : State) :
  (recording s = false -> stopRecording s = s) /\
  stopRecording (stopRecording s) = stopRecording s.
Proof.
  assert (Hidle : forall s0, recording s0 = false -> stopRecording s0 = s0).
  { intros s0 H. unfold stopRecording. rewrite H. now destruct (recorderRef s0). }
  split; [apply Hidle|].
  destruct (recorderRef s) as [r|] eqn:Hr.
  - apply Hidle. unfold stopRecording. rewrite Hr.
    destruct (recording s) eqn:Hrec; [reflexivity|exact Hrec].
  - assert (H : stopRecording s = s) by (unfold stopRecording; now rewrite Hr).
    now rewrite !H.
Qed.

(** C10, as the code has it.  A session starts with an empty chunk buffer.
    When no session is started, and no other recorder delivers data, between
    its start and its stop notification, the buffer holds up to that
    notification, in arrival order, the segments of non-zero size delivered
    since the start, and the artifact behind the handle then exposed is a
    WebM blob whose bytes are their concatenation, which is the
    concatenation of all the segments delivered. *)
Theorem artifact_concatenates_session_segments
        (s : State) (events : list Event) :
  reachable s -> recording s = false ->
  let r := length (recorders s) in
  let s1 := handle (ClickStart StartOk) s in
  recording s1 = true ->
  forallb (within_session r) events = true ->
  let s2 := handle (RecorderStopped r) (run events s1) in
  recordedChunks s1 = [] /\
  recorderRef s1 = Some r /\
  recordedChunks (run events s1) = filter nonEmpty (segments events) /\
  exists u b,
    videoURL s2 = Some u /\
    lookup u (urlStore s2) = Some b /\
    b = newBlob (filter nonEmpty (segments events)) "video/webm" /\
    blob_type b = "video/webm"%string /\
    blob_bytes b = concat (map blob_bytes (filter nonEmpty (segments events))) /\
    blob_bytes b = concat (map blob_bytes (segments events)).
Proof.
  intros Hreach Hrec r s1 Hstarted Hevents s2.
  assert (Hfields : recordedChunks s1 = [] /\ recorderRef s1 = Some r /\
                    length (recorders s1) = S r).
  { subst s1 r. revert Hstarted. unfold handle, startRecording.
    rewrite Hrec.
    destruct (negb (modelsLoaded s) || negb (cameraReady s));
      [congruence|].
    destruct (if mounted s then canvasChild s else None); cbn;
      [|congruence].
    intros _. rewrite length_app. cbn. conj_split; try reflexivity. lia. }
  destruct Hfields as (Hc1 & Hr & Hlen).
  assert (Hlt : r < length (recorders s1)) by lia.
  destruct (chunks_run r events s1 Hevents Hlt) as (Hchunks & Hlen').
  rewrite Hc1, app_nil_l in Hchunks.
  conj_split; try assumption.
  subst s2. rewrite handle_RecorderStopped by lia.
  destruct (onstop_artifact (run events s1)) as (Hv & Hl).
  rewrite Hchunks in Hl.
  exists (nextURL (run events s1)),
    (newBlob (filter nonEmpty (segments events)) "video/webm").
  conj_split; try reflexivity; try assumption.
  cbn. apply concat_nonEmpty.
Qed.

(** C10 as stated fails.  The second session is started before the stop
    notification of the first.  Recorder 0 delivered the segments
    [frameData] and [secondData], and the artifact exposed at its stop
    notification holds the bytes of [secondData] alone; a third segment then
    comes from recorder 1, and the artifact of the second session holds the
    bytes of [secondData], which recorder 0 delivered, before it. *)
Lemma overlapping_sessions_share_the_buffer :
  (recording overlapped = true /\ recorderRef overlapped = Some 1 /\
   segments [DataAvailable 0 frameData; DataAvailable 0 secondData] =
     [frameData; secondData]) /\
  (videoURL (handle (RecorderStopped 0) overlapped) = Some 0 /\
   option_map blob_bytes
     (lookup 0 (urlStore (handle (RecorderStopped 0) overlapped))) =
     Some (blob_bytes secondData)) /\
  (videoURL
     (run [RecorderStopped 0; DataAvailable 1 frameData; ClickStop;
           RecorderStopped 1] overlapped) = Some 1 /\
   option_map blob_bytes
     (lookup 1
        (urlStore
           (run [RecorderStopped 0; DataAvailable 1 frameData; ClickStop;
                 RecorderStopped 1] overlapped))) =
     Some (blob_bytes secondData ++ blob_bytes frameData)).
Proof. vm_compute. repeat split. Qed.

(** * The sample runs *)

Example responsive_width_wide : width (responsiveDimensions 1024) = 800%Q.
Proof. reflexivity. Qed.

Example responsive_width_narrow : width (responsiveDimensions 500) = 460%Q.
Proof. reflexivity. Qed.

Example playing_has_one_timer :
  map fst (intervals playing) = [1] /\ detectionIntervalRef playing = Some 1 /\
  streams playing = [[Live]].
Proof. vm_compute. repeat split. Qed.

(** The flush that follows the first artifact runs [cleanup]: the detection
    timer is gone and the camera track has ended. *)
Example first_artifact_flush_runs_cleanup :
  liveHandles (run [DataAvailable 0 frameData; ClickStop; RecorderStopped 0]
                 firstSession) = [0] /\
  intervals (run [DataAvailable 0 frameData; ClickStop; RecorderStopped 0;
                  FlushEffects] firstSession) = [] /\
  streams (run [DataAvailable 0 frameData; ClickStop; RecorderStopped 0;
                FlushEffects] firstSession) = [[Ended]].
Proof. vm_compute. repeat split. Qed.

Example cycling_overlay_shows_one_face :
  overlay cycling =
    Some {| cv_width := 800; cv_height := 600;
            cv_ops := [OpDrawDetections [faceOnDisplay];
                       OpDrawFaceLandmarks [faceOnDisplay]] |} /\
  faceDetected cycling = true.
Proof. vm_compute. repeat split. Qed.

Example face_resized_for_display :
  resizeResults [face] (responsiveDimensions 1024) = Some [faceOnDisplay] /\
  resizeResults [face] (responsiveDimensions 40) = None /\
  resizeResults [face] (responsiveDimensions 30) = None.
Proof. vm_compute. repeat split. Qed.

(** In a window 30 pixels wide the display is -10 by -7.5 and the overlay
    300 by 150; a cycle that finds a face sets [faceDetected], logs the
    error that [resizeResults] throws and draws nothing. *)
Example narrow_window_cycle_draws_nothing :
  videoDimensions narrowCycling =
    {| width := (-10)%Q; height := (-15 # 2)%Q |} /\
  overlaySize narrowCycling = Some (300, 150)%Z /\
  faceDetected (handle (InferenceDone 0 (Detected [face])) narrowCycling)
    = true /\
  hd_error (console (handle (InferenceDone 0 (Detected [face])) narrowCycling))
    = Some "Face detection error:"%string /\
  overlay (handle (InferenceDone 0 (Detected [face])) narrowCycling) =
    overlay narrowCycling.
Proof. vm_compute. repeat split. Qed.

Example canvas_sizes :
  canvasSize 150 (1383 # 4) = 345%Z /\ canvasSize 300 (-10) = 300%Z /\
  canvasSize 150 (-15 # 2) = 150%Z /\ canvasSize 150 (-3 # 4) = 0%Z.
Proof. vm_compute. repeat split. Qed.

(** * The properties at the sample runs *)

(** The sample states are runs from a mount. *)
Ltac sample_reachable events := exists 1024%Z, events; reflexivity.

Lemma previous_handle_released_witness :
  reachable secondStopping /\
  1 < length (recorders secondStopping) /\
  liveHandles secondStopping = [0] /\
  liveHandles (handle (RecorderStopped 1) secondStopping) = [1; 0] /\
  liveHandles (handle FlushEffects (handle (RecorderStopped 1) secondStopping))
    = [1].
Proof.
  assert (Hr : reachable secondStopping) by sample_reachable untilSecondStopping.
  assert (Hlt : 1 < length (recorders secondStopping)) by (vm_compute; lia).
  split; [exact Hr|]. split; [exact Hlt|]. split; [reflexivity|].
  destruct (previous_handle_released_after_exposure secondStopping 1 Hr Hlt)
    as (_ & _ & H1 & _ & _ & _ & _ & H2).
  assert (He : effectVideoURL secondStopping = videoURL secondStopping)
    by (vm_compute; reflexivity).
  assert (Hh : liveHandles secondStopping = held secondStopping)
    by (vm_compute; reflexivity).
  split; [rewrite H1|rewrite (H2 He Hh)]; vm_compute; reflexivity.
Defined.

Lemma overlay_synced_witness :
  reachable listening /\
  pl_modelsLoaded (playListener listening) = true /\
  pl_cameraReady (playListener listening) = true /\
  overlay (handle VideoPlay listening) =
    Some {| cv_width := 800; cv_height := 600; cv_ops := [] |} /\
  videoDimensions (handle (Resize 500) listening) = responsiveDimensions 500 /\
  playListener (handle (Resize 500) listening) = playListener listening /\
  reachable cycling /\
  nth_error (inflight cycling) 0 = Some playingClosure /\
  nth_error (canvases (handle (InferenceDone 0 (Detected [face])) cycling)) 0 =
    Some {| cv_width := 800; cv_height := 600;
            cv_ops := [OpDrawDetections [faceOnDisplay];
                       OpDrawFaceLandmarks [faceOnDisplay]] |} /\
  reachable narrowListening /\
  pl_dims (playListener narrowListening) =
    {| width := (-10)%Q; height := (-15 # 2)%Q |} /\
  overlay (handle VideoPlay narrowListening) =
    Some {| cv_width := 300; cv_height := 150; cv_ops := [] |}.
Proof.
  assert (Hr : reachable listening) by sample_reachable untilListening.
  assert (Hn30 : reachable narrowListening)
    by (exists 30%Z, untilListening; reflexivity).
  assert (Hc : reachable cycling) by sample_reachable untilCycling.
  split; [exact Hr|]. do 2 (split; [reflexivity|]).
  destruct (overlay_synced_at_detection_start listening Hr)
    as (Hresize & _ & Hplay & _).
  assert (Hm : pl_modelsLoaded (playListener listening) = true)
    by (vm_compute; reflexivity).
  assert (Hk : pl_cameraReady (playListener listening) = true)
    by (vm_compute; reflexivity).
  split; [rewrite (proj1 (Hplay Hm Hk)); vm_compute; reflexivity|].
  destruct (Hresize 500%Z) as (Hd & _ & _ & _ & _ & Hl).
  split; [exact Hd|]. split; [exact Hl|].
  split; [exact Hc|]. split; [reflexivity|].
  destruct (overlay_synced_at_detection_start cycling Hc)
    as (_ & _ & _ & _ & Hcycle).
  assert (Hi : nth_error (inflight cycling) 0 = Some playingClosure)
    by (vm_compute; reflexivity).
  assert (Hw : (0 < width (cl_dims playingClosure))%Q)
    by (vm_compute; reflexivity).
  assert (Hh : (0 < height (cl_dims playingClosure))%Q)
    by (vm_compute; reflexivity).
  destruct (Hcycle 0 playingClosure [face] Hi) as (cv & Hn & _ & _ & Hres).
  vm_compute in Hn. injection Hn as <-.
  specialize (Hres Hw Hh).
  change (cl_canvas playingClosure) with 0 in Hres.
  split; [rewrite Hres; vm_compute; reflexivity|].
  split; [exact Hn30|]. split; [vm_compute; reflexivity|].
  destruct (overlay_synced_at_detection_start narrowListening Hn30)
    as (_ & _ & Hplay30 & _).
  assert (Hm30 : pl_modelsLoaded (playListener narrowListening) = true)
    by (vm_compute; reflexivity).
  assert (Hk30 : pl_cameraReady (playListener narrowListening) = true)
    by (vm_compute; reflexivity).
  rewrite (proj1 (Hplay30 Hm30 Hk30)). vm_compute. reflexivity.
Defined.

Lemma one_recorder_witness :
  reachable firstSession /\ recording firstSession = true /\
  activeRecorders firstSession <= 1.
Proof.
  assert (Hr : reachable firstSession) by sample_reachable untilFirstSession.
  split; [exact Hr|]. split; [reflexivity|].
  exact (proj1 (one_recorder_through_controls firstSession Hr)).
Defined.

Lemma surface_not_ready_witness :
  reachable cameraGranted /\ canvasChild cameraGranted = None /\
  error (handle (ClickStart StartOk) cameraGranted) =
    Some "Canvas not ready for recording"%string /\
  recording (handle (ClickStart StartOk) cameraGranted) = false.
Proof.
  assert (Hr : reachable cameraGranted) by sample_reachable untilCameraGranted.
  split; [exact Hr|]. split; [reflexivity|].
  destruct (startRecording_surface_not_ready cameraGranted StartOk Hr eq_refl)
    as (_ & He & _ & _ & Hrec).
  split; [exact He|exact Hrec].
Defined.

Lemma unmount_releases_witness :
  reachable secondSettled /\
  liveHandles secondSettled = [1] /\
  effectVideoURL secondSettled = Some 1 /\
  liveHandles (unmount secondSettled) = [] /\
  intervals (unmount secondSettled) = [] /\
  reachable secondArtifact /\
  liveHandles secondArtifact = [1; 0] /\
  effectVideoURL secondArtifact = Some 0 /\
  liveHandles (unmount secondArtifact) = [1].
Proof.
  assert (Hr : reachable secondSettled) by sample_reachable untilSecondSettled.
  assert (Ha : reachable secondArtifact)
    by sample_reachable (untilSecondStopping ++ [RecorderStopped 1]).
  split; [exact Hr|]. do 2 (split; [reflexivity|]).
  destruct (unmount_releases_timer_camera_handle secondSettled Hr)
    as (Hi & _ & _ & Hl & _).
  split; [rewrite Hl; vm_compute; reflexivity|]. split; [exact Hi|].
  split; [exact Ha|]. do 2 (split; [reflexivity|]).
  destruct (unmount_releases_timer_camera_handle secondArtifact Ha)
    as (_ & _ & _ & Hl' & _).
  rewrite Hl'. vm_compute. reflexivity.
Defined.

Lemma cycle_overlay_witness :
  reachable cycling /\
  nth_error (inflight cycling) 0 = Some playingClosure /\
  (0 < width (cl_dims playingClosure))%Q /\
  (0 < height (cl_dims playingClosure))%Q /\
  overlay cycling =
    Some {| cv_width := 800; cv_height := 600;
            cv_ops := [OpDrawDetections [faceOnDisplay];
                       OpDrawFaceLandmarks [faceOnDisplay]] |} /\
  overlay (handle (InferenceDone 0 (Detected [])) cycling) =
    Some {| cv_width := 800; cv_height := 600; cv_ops := [] |} /\
  overlay (handle (InferenceDone 0 (Detected [face; face])) cycling) =
    Some {| cv_width := 800; cv_height := 600;
            cv_ops := [OpDrawDetections [faceOnDisplay; faceOnDisplay];
                       OpDrawFaceLandmarks [faceOnDisplay; faceOnDisplay]] |}.
Proof.
  assert (Hr : reachable cycling) by sample_reachable untilCycling.
  assert (Hw : (0 < width (cl_dims playingClosure))%Q)
    by (vm_compute; reflexivity).
  assert (Hh : (0 < height (cl_dims playingClosure))%Q)
    by (vm_compute; reflexivity).
  assert (Hi : nth_error (inflight cycling) 0 = Some playingClosure)
    by (vm_compute; reflexivity).
  assert (Hk : canvasChild cycling = Some (cl_canvas playingClosure))
    by (vm_compute; reflexivity).
  split; [exact Hr|]. split; [exact Hi|].
  split; [exact Hw|]. split; [exact Hh|].
  split; [vm_compute; reflexivity|].
  split.
  - destruct (cycle_overlay_shows_only_its_result cycling 0 playingClosure []
                Hr Hi) as (_ & cv & Hn & Hres & _ & _ & _ & Hov & _).
    vm_compute in Hn. injection Hn as <-.
    rewrite (Hov Hk), (Hres Hw Hh). vm_compute. reflexivity.
  - destruct (cycle_overlay_shows_only_its_result cycling 0 playingClosure
                [face; face] Hr Hi)
      as (_ & cv & Hn & Hres & _ & _ & _ & Hov & _).
    vm_compute in Hn. injection Hn as <-.
    rewrite (Hov Hk), (Hres Hw Hh). vm_compute. reflexivity.
Defined.

Lemma faceDetected_witness :
  nth_error (inflight cycling) 0 = Some playingClosure /\
  faceDetected cycling = true /\
  faceDetected (handle (InferenceDone 0 (Detected [])) cycling) = false.
Proof.
  split; [reflexivity|]. split; [reflexivity|].
  exact (proj2 (faceDetected_iff_result_nonempty cycling 0 playingClosure []
                  eq_refl) eq_refl).
Defined.


Lemma stopRecording_idle_witness :
  recording playing = false /\ stopRecording playing = playing.
Proof.
  split; [reflexivity|].
  exact (proj1 (stopRecording_idle_noop playing) eq_refl).
Defined.

Lemma artifact_witness :
  reachable playing /\ recording playing = false /\
  recording (handle (ClickStart StartOk) playing) = true /\
  forallb (within_session (length (recorders playing))) sessionEvents = true /\
  segments sessionEvents = [frameData; emptyData; frameData] /\
  exists u,
    videoURL
      (handle (RecorderStopped (length (recorders playing)))
         (run sessionEvents (handle (ClickStart StartOk) playing))) = Some u /\
    option_map blob_bytes
      (lookup u
         (urlStore
            (handle (RecorderStopped (length (recorders playing)))
               (run sessionEvents (handle (ClickStart StartOk) playing))))) =
    Some [Byte.x1a; Byte.x45; Byte.xdf; Byte.xa3;
          Byte.x1a; Byte.x45; Byte.xdf; Byte.xa3].
Proof.
  assert (Hr : reachable playing) by sample_reachable untilPlaying.
  assert (Hi : recording playing = false) by (vm_compute; reflexivity).
  assert (Hs : recording (handle (ClickStart StartOk) playing) = true)
    by (vm_compute; reflexivity).
  assert (He : forallb (within_session (length (recorders playing)))
                 sessionEvents = true) by (vm_compute; reflexivity).
  split; [exact Hr|]. split; [exact Hi|]. split; [exact Hs|].
  split; [exact He|]. split; [reflexivity|].
  destruct (artifact_concatenates_session_segments playing sessionEvents
              Hr Hi Hs He)
    as (_ & _ & _ & u & b & Hv & Hl & _ & _ & _ & Hbytes).
  exists u. split; [exact Hv|].
  rewrite Hl. cbn [option_map]. f_equal. rewrite Hbytes. reflexivity.
Defined.

(** ** Capability gates *)

Lemma flags_monotone (e : Event) (s : State) :
  (modelsLoaded s = true -> modelsLoaded (handle e s) = true) /\
  (cameraReady s = true -> cameraReady (handle e s) = true).
Proof.
  split; intros H;
    destruct e; unfold_component; open_state; cbn in H; subst; split_cases;
    congruence.
Qed.

Lemma ready_monotone (e : Event) (s : State) :
  ready s = true -> ready (handle e s) = true.
Proof.
  unfold ready. rewrite !andb_true_iff. intros [Hm Hc].
  destruct (flags_monotone e s) as [H1 H2]. auto.
Qed.

Lemma idle_handle (e : Event) (s : State) :
  ready s = false -> listener_ok s -> idle s -> idle (handle e s).
Proof.
  intros Hr (Hlm & Hlc & _) H.
  assert (Hplay : handle VideoPlay s = s).
  { unfold handle, handlePlay. unfold ready in Hr.
    destruct (pl_modelsLoaded (playListener s)); [|reflexivity].
    destruct (pl_cameraReady (playListener s)); [|reflexivity].
    now rewrite Hlm, Hlc in Hr. }
  clear Hlm Hlc.
  assert (Hstop : forall r, handle (RecorderStopped r) s = s).
  { intros r. unfold handle. destruct H as (_ & _ & _ & _ & -> & _).
    now destruct (Nat.ltb_spec r (length (@nil MediaRecorder))). }
  assert (Hflush : handle FlushEffects s = playEffect s).
  { unfold handle. rewrite flush_unfold.
    destruct H as (_ & _ & _ & _ & _ & _ & _ & _ & -> & _ & -> & _).
    reflexivity. }
  destruct e; rewrite ?Hstop, ?Hflush, ?Hplay; try exact H;
    clear Hstop Hflush Hplay;
    revert Hr H; unfold ready, idle; unfold_component; open_state;
    intros Hr H; cbn in Hr, H; decompose [and] H; subst; clear H;
    rewrite ?nth_error_nil; split_cases;
    try discriminate; repeat split; reflexivity.
Qed.

Lemma idle_until_ready (s : State) :
  reachable s -> ready s = false -> idle s.
Proof.
  intros Hreach.
  apply (reachable_invariant
           (fun s => listener_ok s /\ (ready s = false -> idle s)));
    [| |exact Hreach].
  - intros w. split; [apply listener_ok_reachable, reachable_mount|].
    intros _. repeat split.
  - intros e s0 [Hl IH]. split; [now apply listener_ok_handle|].
    intros Hr. destruct (ready s0) eqn:E;
      [now rewrite (ready_monotone e s0 E) in Hr|].
    apply idle_handle; [exact E|exact Hl|now apply IH].
Qed.

(** ** The detection timer *)

Lemma length_remove_key {A} (k : nat) (l : list (nat * A)) :
  length (remove_key k l) <= length l.
Proof. unfold remove_key. apply filter_length_le. Qed.

Lemma flush_pending (s : State) :
  option_nat_eqb (effectVideoURL s) (videoURL s) = false ->
  intervals (flushPassiveEffects s) = armed s /\
  streams (flushPassiveEffects s) = streams (cleanup None s) /\
  videoDimensions (flushPassiveEffects s) = responsiveDimensions (innerWidth s).
Proof.
  intros E. rewrite flush_unfold, E. unfold armed.
  repeat split; unchanged.
Qed.

Lemma intervals_flush_cases (s : State) :
  intervals (flushPassiveEffects s) = intervals s \/
  intervals (flushPassiveEffects s) = armed s.
Proof.
  destruct (option_nat_eqb (effectVideoURL s) (videoURL s)) eqn:E.
  - left. now rewrite flush_unfold, E.
  - right. now apply flush_pending.
Qed.

Lemma intervals_length_handle (e : Event) (s : State) :
  timers_ok s -> length (intervals s) <= 1 ->
  length (intervals (handle e s)) <= 1.
Proof.
  intros Htm Hlen.
  assert (Hflush : forall s0, timers_ok s0 -> length (intervals s0) <= 1 ->
                   length (intervals (flushPassiveEffects s0)) <= 1).
  { intros s0 H0 L0. destruct (intervals_flush_cases s0) as [-> | ->];
      [exact L0|]. rewrite (armed_nil s0 H0). cbn. lia. }
  assert (Hframe : intervals (handle e s) = intervals s ->
                   length (intervals (handle e s)) <= 1)
    by (now intros ->).
  destruct e; try (apply Hframe; unchanged).
  - destruct (handle_VideoPlay_cases s) as [->|(Hm & _ & _ & ->)];
      [exact Hlen|].
    destruct (startFaceDetection_mounted (playListener s) s Hm)
      as (_ & _ & -> & _).
    rewrite (armed_nil s Htm). cbn. lia.
  - now apply Hflush.
Qed.

Lemma intervals_length_reachable (s : State) :
  reachable s -> timers_ok s /\ length (intervals s) <= 1.
Proof.
  apply (reachable_invariant (fun s => timers_ok s /\ length (intervals s) <= 1)).
  - intros w. split; [apply timers_ok_reachable, reachable_mount|].
    unfold mount, cameraEffect, loadModels, calculateDimensions. cbn. lia.
  - intros e s0 [H1 H2]. split.
    + now apply timers_ok_handle.
    + now apply intervals_length_handle.
Qed.

Lemma intervals_unmount (s : State) : reachable s -> intervals (unmount s) = [].
Proof.
  intros Hreach. destruct (unmount_fields s) as (-> & _).
  apply armed_nil, timers_ok_reachable, Hreach.
Qed.

(** ** The camera streams *)

Lemma streams_length_cleanup (u : option nat) (s : State) :
  length (streams (cleanup u s)) = length (streams s).
Proof.
  rewrite streams_cleanup. destruct (streamRef s); [|reflexivity].
  apply length_update_nth.
Qed.

Lemma streams_length_flush (s : State) :
  length (streams (flushPassiveEffects s)) = length (streams s).
Proof.
  destruct (streams_flush s) as [-> | ->]; [reflexivity|].
  apply streams_length_cleanup.
Qed.

Lemma streamRef_flush (s : State) :
  streamRef (flushPassiveEffects s) = streamRef s.
Proof. unchanged. Qed.

Lemma stream_held_handle (e : Event) (s : State) :
  stream_held s -> stream_held (handle e s).
Proof.
  unfold stream_held. intros H.
  assert (Hframe : streams (handle e s) = streams s ->
                   streamRef (handle e s) = streamRef s ->
                   forall st, streamRef (handle e s) = Some st ->
                              st < length (streams (handle e s))).
  { intros -> ->. exact H. }
  destruct e; try (apply Hframe; unchanged).
  - destruct tracks as [n|]; [|apply Hframe; unchanged].
    intros st. unfold handle, startCamera_resolved. cbn.
    destruct (mounted s); cbn; intros Hst; inversion Hst;
      rewrite length_app; cbn; lia.
  - intros st. unfold handle.
    rewrite streamRef_flush, streams_length_flush. apply H.
Qed.

Lemma stream_held_reachable (s : State) : reachable s -> stream_held s.
Proof.
  apply reachable_invariant; [|apply stream_held_handle].
  intros w st. discriminate.
Qed.

Lemma streams_unmount_other (s : State) (k : nat) :
  streamRef s <> Some k ->
  nth_error (streams (unmount s)) k = nth_error (streams s) k.
Proof.
  intros Hk. destruct (unmount_fields s) as (_ & -> & _).
  rewrite streams_cleanup. destruct (streamRef s) as [st|]; [|reflexivity].
  apply nth_error_update_nth_other. congruence.
Qed.

(** Fields that neither [cleanup] nor the effect flush nor [onstop] touch. *)
Lemma flush_keeps (s : State) :
  cameraReady (flushPassiveEffects s) = cameraReady s /\
  canvasChild (flushPassiveEffects s) = canvasChild s /\
  inflight (flushPassiveEffects s) = inflight s /\
  canvases (flushPassiveEffects s) = canvases s /\
  innerWidth (flushPassiveEffects s) = innerWidth s.
Proof. conj_split; unchanged. Qed.

Lemma cleanup_keeps (u : option nat) (s : State) :
  inflight (cleanup u s) = inflight s /\ canvases (cleanup u s) = canvases s.
Proof. split; unchanged. Qed.

Lemma onstop_keeps (s : State) :
  cameraReady (onstop s) = cameraReady s /\
  canvasChild (onstop s) = canvasChild s /\
  innerWidth (onstop s) = innerWidth s.
Proof. repeat split. Qed.

(** ** Artifacts in the URL store *)

Lemma Forall_remove_key {A} (P : nat * A -> Prop) (k : nat) (l : list (nat * A)) :
  Forall P l -> Forall P (remove_key k l).
Proof.
  unfold remove_key. rewrite !Forall_forall. intros H p Hin.
  apply filter_In in Hin. now apply H.
Qed.

Lemma blobs_ok_flush (s : State) : blobs_ok s -> blobs_ok (flushPassiveEffects s).
Proof.
  unfold blobs_ok. rewrite flush_urlStore. intros H.
  destruct (option_nat_eqb _ _); [exact H|].
  destruct (effectVideoURL s); [|exact H]. now apply Forall_remove_key.
Qed.

Lemma blobs_ok_handle (e : Event) (s : State) :
  blobs_ok s -> blobs_ok (handle e s).
Proof.
  intros H.
  assert (Hframe : urlStore (handle e s) = urlStore s -> blobs_ok (handle e s)).
  { unfold blobs_ok. now intros ->. }
  destruct e; try (apply Hframe; unchanged).
  - unfold handle. destruct (r <? length (recorders s)); [|exact H].
    unfold blobs_ok.
    destruct (onstop_handles s) as (_ & _ & _ & _ & ->). now constructor.
  - now apply blobs_ok_flush.
Qed.

Lemma blobs_ok_reachable (s : State) : reachable s -> blobs_ok s.
Proof.
  apply reachable_invariant; [|apply blobs_ok_handle].
  intros w. constructor.
Qed.

Lemma In_lookup {A} (k : nat) (l : list (nat * A)) :
  In k (map fst l) -> exists a, lookup k l = Some a /\ In (k, a) l.
Proof.
  induction l as [|[k' a'] l IH]; cbn; [contradiction|].
  intros [->|Hin].
  - exists a'. rewrite Nat.eqb_refl. split; [reflexivity|now left].
  - destruct (Nat.eqb_spec k k') as [->|Hne].
    + exists a'. split; [reflexivity|now left].
    + destruct (IH Hin) as (a & Hl & Ha). exists a. split; [exact Hl|now right].
Qed.

(** ** Canvases that recorders and the overlay refer to *)

Lemma canvases_length_handle (e : Event) (s : State) :
  length (canvases s) <= length (canvases (handle e s)).
Proof.
  assert (Hframe : canvases (handle e s) = canvases s ->
                   length (canvases s) <= length (canvases (handle e s)))
    by (intros ->; lia).
  destruct e; try (apply Hframe; unchanged).
  - destruct (handle_VideoPlay_cases s) as [->|(Hm & _ & _ & ->)]; [lia|].
    destruct (startFaceDetection_mounted (playListener s) s Hm) as (-> & _).
    rewrite length_app. lia.
  - unfold handle.
    destruct (nth_error (inflight s) i) as [c|] eqn:Hi;
      [|rewrite detectionResume_idle by exact Hi; lia].
    destruct o.
    + rewrite (canvases_detected _ _ _ _ Hi), length_update_nth. lia.
    + apply Hframe. unchanged.
Qed.

Lemma canvas_refs_ok_handle (e : Event) (s : State) :
  canvas_refs_ok s -> canvas_refs_ok (handle e s).
Proof.
  intros [Hrec Hov].
  pose proof (canvases_length_handle e s) as Hlen.
  assert (Hframe : recorders (handle e s) = recorders s ->
                   canvasChild (handle e s) = canvasChild s ->
                   canvas_refs_ok (handle e s)).
  { intros Hr Hc. unfold canvas_refs_ok. rewrite Hr, Hc. split.
    - intros m Hm. specialize (Hrec m Hm). lia.
    - intros k Hk. specialize (Hov k Hk). lia. }
  destruct e; try (apply Hframe; unchanged).
  - (* VideoPlay *)
    revert Hlen.
    destruct (handle_VideoPlay_cases s) as [->|(Hm & _ & _ & ->)];
      [now split|].
    destruct (startFaceDetection_mounted (playListener s) s Hm)
      as (Hc & Hk & _).
    intros Hlen. split.
    + replace (recorders (startFaceDetection (playListener s) s))
        with (recorders s) by (symmetry; unchanged).
      intros m Hin. specialize (Hrec m Hin). lia.
    + rewrite Hk, Hc, length_app. cbn. intros k Heq. inversion Heq. lia.
  - (* ClickStart *)
    clear Hlen. unfold handle.
    destruct (recording s); [now split|].
    destruct (negb (modelsLoaded s) || negb (cameraReady s)); [now split|].
    unfold startRecording.
    destruct (mounted s); [|now split].
    destruct (canvasChild s) as [k|] eqn:Hk;
      [|split; [exact Hrec|intros k' Hk'; cbn in Hk'; congruence]].
    pose proof (Hov k eq_refl) as Hlt.
    destruct o; unfold canvas_refs_ok; cbn;
      (split; [|intros k0 Hk0; apply Hov; congruence]);
      try exact Hrec;
      intros m Hin; apply in_app_or in Hin;
      (destruct Hin as [Hin|[<-|[]]]; [now apply Hrec|exact Hlt]).
  - (* ClickStop *)
    clear Hlen. unfold handle, stopRecording, mr_stop.
    destruct (recording s); [|now split].
    destruct (recorderRef s) as [r|]; [|now split].
    cbn. split; [|exact Hov].
    intros m Hin. apply In_update_nth in Hin.
    destruct Hin as [Hin|(a & Ha & ->)]; [now apply Hrec|].
    cbn. eapply Hrec, nth_error_In, Ha.
Qed.

Lemma canvas_refs_ok_reachable (s : State) : reachable s -> canvas_refs_ok s.
Proof.
  apply reachable_invariant; [|apply canvas_refs_ok_handle].
  intros w. split; [intros m []|intros k; discriminate].
Qed.

(** ** The chunk buffer *)

Lemma chunks_ok_handle (e : Event) (s : State) :
  chunks_ok s -> chunks_ok (handle e s).
Proof.
  intros H.
  assert (Hframe : recordedChunks (handle e s) = recordedChunks s ->
                   chunks_ok (handle e s)).
  { unfold chunks_ok. now intros ->. }
  destruct e; try (apply Hframe; unchanged).
  - unfold handle.
    destruct (recording s); [exact H|].
    destruct (negb (modelsLoaded s) || negb (cameraReady s)); [exact H|].
    unfold startRecording.
    destruct (if mounted s then canvasChild s else None); [|exact H].
    destruct o; unfold chunks_ok; cbn; try exact H; constructor.
  - unfold handle, ondataavailable.
    destruct (r <? length (recorders s)); [|exact H].
    destruct (0 <? size data) eqn:E; [|exact H].
    unfold chunks_ok. cbn. apply Forall_app. split; [exact H|].
    now repeat constructor.
Qed.

Lemma chunks_ok_reachable (s : State) : reachable s -> chunks_ok s.
Proof.
  apply reachable_invariant; [|apply chunks_ok_handle].
  intros w. constructor.
Qed.

(** ** The elapsed time *)

Lemma elapsed_handle (e : Event) (s : State) :
  keeps_session e = true ->
  recording (handle e s) = recording s /\
  recordingTime (handle e s) =
    recordingTime s + (if recording s then seconds_in [e] else 0).
Proof.
  intros He.
  destruct e; try discriminate; clear He; split;
    unfold seconds_in; cbn [filter length];
    unfold_component; open_state; split_cases;
    rewrite ?Nat.add_0_r; try reflexivity; try congruence.
Qed.

Lemma seconds_in_app (ev1 ev2 : list Event) :
  seconds_in (ev1 ++ ev2) = seconds_in ev1 + seconds_in ev2.
Proof. unfold seconds_in. now rewrite filter_app, length_app. Qed.

Lemma elapsed_run (events : list Event) (s : State) :
  forallb keeps_session events = true ->
  recording (run events s) = recording s /\
  recordingTime (run events s) =
    recordingTime s + (if recording s then seconds_in events else 0).
Proof.
  induction events as [|e events IH] using rev_ind; intros Hall.
  - cbn. split; [reflexivity|]. destruct (recording s); cbn; lia.
  - rewrite forallb_app in Hall. apply andb_true_iff in Hall.
    destruct Hall as [Hall He]. cbn in He. rewrite andb_true_r in He.
    destruct (IH Hall) as [Hrec Htime].
    destruct (elapsed_handle e (run events s) He) as [Hrec' Htime'].
    rewrite run_snoc, Hrec', Htime', Hrec, Htime, seconds_in_app.
    split; [reflexivity|]. destruct (recording s); lia.
Qed.

(** ** Formatting the elapsed time *)

Lemma string_length_append (s t : string) :
  String.length (s ++ t) = String.length s + String.length t.
Proof. induction s as [|c s IH]; cbn; [reflexivity|now rewrite IH]. Qed.

Lemma append_inj_suffix (s1 s2 t1 t2 : string) :
  String.length t1 = String.length t2 ->
  (s1 ++ t1 = s2 ++ t2)%string -> s1 = s2 /\ t1 = t2.
Proof.
  revert s2. induction s1 as [|c s1 IH]; intros [|d s2] Hlen H; cbn in H.
  - now split.
  - apply (f_equal String.length) in H. cbn in H.
    rewrite string_length_append in H. lia.
  - apply (f_equal String.length) in H. cbn in H.
    rewrite string_length_append in H. lia.
  - inversion H; subst. destruct (IH s2 Hlen H2) as [-> ->]. now split.
Qed.

Lemma string_cons_inj (a b : ascii) (s t : string) :
  String a s = String b t -> a = b /\ s = t.
Proof. intros H. inversion H. now split. Qed.

Lemma toString_inj (n m : nat) : toString n = toString m -> n = m.
Proof.
  unfold toString. intros H.
  apply (f_equal NilEmpty.uint_of_string) in H.
  rewrite !NilEmpty.usu in H. inversion H.
  now apply DecimalNat.Unsigned.to_uint_inj.
Qed.

Lemma two_digits (k : nat) :
  k < 60 ->
  padStart 2 "0" (toString k) =
  String (digit (k / 10)) (String (digit (k mod 10)) EmptyString).
Proof.
  intros H. do 60 (destruct k as [|k]; [reflexivity|]). lia.
Qed.

Lemma digit_inj (a b : nat) : a < 10 -> b < 10 -> digit a = digit b -> a = b.
Proof.
  unfold digit. intros Ha Hb H. apply (f_equal nat_of_ascii) in H.
  rewrite !nat_ascii_embedding in H by lia. lia.
Qed.

(** ** The responsive width *)

Lemma responsive_width (w : Z) :
  width (responsiveDimensions w) = inject_Z (Z.min (w - 40) 800).
Proof.
  unfold responsiveDimensions. cbn [width].
  assert (Hleft : Qred (inject_Z w - 40)%Q = inject_Z (w - 40)).
  { unfold Qminus, Qplus, Qopp, inject_Z. cbn [Qnum Qden].
    rewrite Qcanon.Qred_identity.
    - f_equal. lia.
    - cbn [Qnum Qden]. apply Z.gcd_1_r. }
  unfold Qmin, GenericMinMax.gmin.
  assert (Hcmp : ((inject_Z w - 40)%Q ?= 800%Q)%Q = (w - 40 ?= 800)%Z).
  { unfold Qcompare, Qminus, Qplus, Qopp, inject_Z. cbn [Qnum Qden].
    f_equal; lia. }
  rewrite Hcmp.
  destruct (Z.compare_spec (w - 40) 800) as [E|E|E].
  - rewrite Hleft, Z.min_l by lia. reflexivity.
  - rewrite Hleft, Z.min_l by lia. reflexivity.
  - rewrite Z.min_r by lia. reflexivity.
Qed.

(** * Further properties *)

(** X1.  Until the models are loaded and the camera is ready the component
    starts nothing: there is no detection timer, no canvas, no recorder and
    no artifact, and neither the video's play event nor the Start and Stop
    controls change the state. *)
Theorem nothing_starts_before_ready (s : State) :
  reachable s -> ready s = false ->
  idle s /\
  handle VideoPlay s = s /\
  (forall o, handle (ClickStart o) s = s) /\
  handle ClickStop s = s.
Proof.
  intros Hreach Hr. pose proof (idle_until_ready s Hreach Hr) as Hidle.
  split; [exact Hidle|].
  destruct Hidle as (_ & _ & _ & _ & _ & _ & Hrec & _).
  destruct (listener_ok_reachable s Hreach) as (Hlm & Hlc & _).
  unfold ready in Hr. conj_split.
  - unfold handle, handlePlay.
    destruct (pl_modelsLoaded (playListener s)); [|reflexivity].
    destruct (pl_cameraReady (playListener s)); [|reflexivity].
    now rewrite Hlm, Hlc in Hr.
  - intros o. unfold handle. rewrite Hrec.
    replace (negb (modelsLoaded s) || negb (cameraReady s)) with true;
      [reflexivity|].
    destruct (modelsLoaded s), (cameraReady s); cbn in *; congruence.
  - unfold handle. now rewrite Hrec.
Qed.

(** X2.  [modelsLoaded] and [cameraReady], once true, stay true along every
    run, also across the cleanup that ends the camera's tracks. *)
Theorem readiness_never_reset (events : list Event) (s : State) :
  (modelsLoaded s = true -> modelsLoaded (run events s) = true) /\
  (cameraReady s = true -> cameraReady (run events s) = true).
Proof.
  induction events as [|e events IH] using rev_ind; [now split|].
  rewrite run_snoc. destruct IH as [IHm IHc].
  destruct (flags_monotone e (run events s)) as [Hm Hc]. split; auto.
Qed.

(** X3.  At most one detection timer is live, and it is the one held in
    [detectionIntervalRef]. *)
Theorem one_detection_timer (s : State) :
  reachable s ->
  length (intervals s) <= 1 /\
  (forall t c, In (t, c) (intervals s) -> detectionIntervalRef s = Some t).
Proof.
  intros Hreach. destruct (intervals_length_reachable s Hreach) as [Htm Hlen].
  split; [exact Hlen|exact Htm].
Qed.

(** X4.  Whenever a download link is shown, its URL is live and stands for
    a WebM blob. *)
Theorem download_link_is_live (s : State) (u : nat) :
  reachable s -> videoURL s = Some u ->
  In u (liveHandles s) /\
  exists b, lookup u (urlStore s) = Some b /\ blob_type b = "video/webm"%string.
Proof.
  intros Hreach Hu.
  destruct (handles_ok_reachable s Hreach) as (_ & Hlive & _).
  pose proof (Hlive u Hu) as Hin.
  split; [exact Hin|].
  destruct (In_lookup u (urlStore s) Hin) as (b & Hl & Hb).
  exists b. split; [exact Hl|].
  pose proof (blobs_ok_reachable s Hreach) as Hok. unfold blobs_ok in Hok.
  rewrite Forall_forall in Hok. exact (Hok _ Hb).
Qed.

(** X5.  A further grant of the camera replaces the stream in [streamRef]
    without ending the tracks of the stream held before, and the teardown
    that follows leaves that earlier stream as it was. *)
Theorem regrant_leaves_previous_stream (s : State) (st n : nat) :
  reachable s -> streamRef s = Some st ->
  let s1 := handle (CameraResult (Some n)) s in
  st < length (streams s) /\
  streamRef s1 = Some (length (streams s)) /\
  nth_error (streams s1) st = nth_error (streams s) st /\
  nth_error (streams (unmount s1)) st = nth_error (streams s) st.
Proof.
  intros Hreach Hst s1.
  pose proof (stream_held_reachable s Hreach st Hst) as Hlt.
  assert (Href : streamRef s1 = Some (length (streams s))).
  { subst s1. unfold handle, startCamera_resolved. cbn.
    now destruct (mounted s). }
  assert (Hs1 : nth_error (streams s1) st = nth_error (streams s) st).
  { subst s1. unfold handle, startCamera_resolved. cbn.
    destruct (mounted s); cbn; now rewrite nth_error_app1. }
  conj_split; try assumption.
  rewrite streams_unmount_other; [exact Hs1|].
  rewrite Href. intros H. inversion H. lia.
Qed.

(** X6.  A start that throws leaves [recording] false and no recorder
    recording, shows 'Failed to start recording' and does not touch
    detection or the artifact.  When it is [recorder.start] that throws, the
    new recorder is already in [recorderRef] and the chunk buffer is already
    empty; when it throws earlier both are as before. *)
Theorem failed_start_leaves_no_session (s : State) (o : StartOutcome) :
  reachable s -> o <> StartOk -> recording s = false -> ready s = true ->
  canvasChild s <> None ->
  let s' := handle (ClickStart o) s in
  error s' = Some "Failed to start recording"%string /\
  recording s' = false /\
  activeRecorders s' = 0 /\
  intervals s' = intervals s /\ inflight s' = inflight s /\
  canvases s' = canvases s /\
  videoURL s' = videoURL s /\ urlStore s' = urlStore s /\
  (o = StartThrew ->
   recordedChunks s' = [] /\ recorderRef s' = Some (length (recorders s))) /\
  (o <> StartThrew ->
   recordedChunks s' = recordedChunks s /\ recorderRef s' = recorderRef s /\
   recorders s' = recorders s).
Proof.
  intros Hreach Ho Hrec Hr Hc s'.
  destruct (canvas_ok_reachable s Hreach) as [Hm _].
  pose proof (session_ok_reachable s' (reachable_handle _ _ Hreach)) as Hses.
  assert (Hs' : s' = startRecording o s).
  { subst s'. unfold handle. rewrite Hrec. unfold ready in Hr.
    apply andb_true_iff in Hr. destruct Hr as [-> ->]. reflexivity. }
  assert (Hrec' : recording s' = false).
  { rewrite Hs'. unfold startRecording. rewrite Hm.
    destruct (canvasChild s); [|contradiction].
    destruct o; cbn; congruence. }
  unfold session_ok in Hses. rewrite Hrec' in Hses.
  split; [|split; [exact Hrec'|split; [exact Hses|]]];
    rewrite Hs'; unfold startRecording; rewrite Hm;
    (destruct (canvasChild s); [|contradiction]);
    destruct o; cbn; conj_split; try reflexivity; try congruence;
    intros; conj_split; congruence.
Qed.

(** X7.  When detection starts again, the overlay gets a new canvas while
    every recorder keeps the canvas it was created on: a recording in
    progress goes on capturing the canvas that is no longer the overlay. *)
Theorem restart_leaves_recorder_on_old_canvas
        (s : State) (r : nat) (m : MediaRecorder) :
  reachable s -> ready s = true -> nth_error (recorders s) r = Some m ->
  let s' := handle VideoPlay s in
  nth_error (recorders s') r = Some m /\
  canvasChild s' = Some (length (canvases s)) /\
  mr_canvas m < length (canvases s).
Proof.
  intros Hreach Hr Hm s'.
  destruct (canvas_ok_reachable s Hreach) as [Hmounted _].
  destruct (canvas_refs_ok_reachable s Hreach) as [Hrefs _].
  pose proof (Hrefs m (nth_error_In _ _ Hm)) as Hlt.
  destruct (listener_ok_reachable s Hreach) as (_ & _ & Hl).
  destruct Hl as [Hml Hcr].
  { intros E. rewrite E in Hlt. cbn in Hlt. lia. }
  subst s'. rewrite (handle_VideoPlay s Hml Hcr).
  destruct (startFaceDetection_mounted (playListener s) s Hmounted)
    as (_ & Hk & _).
  conj_split.
  - replace (recorders (startFaceDetection (playListener s) s))
      with (recorders s) by (symmetry; unchanged). exact Hm.
  - exact Hk.
  - eapply Hrefs, nth_error_In, Hm.
Qed.

(** X8.  Between the start of a session and its stop, the elapsed time
    advances by one for each firing of the recording timer and by nothing
    else; while [recording] is false it does not move; the stop notification
    sets it back to zero. *)
Theorem elapsed_time_counts_seconds (events : list Event) (s : State) :
  forallb keeps_session events = true ->
  recording (run events s) = recording s /\
  recordingTime (run events s) =
    recordingTime s + (if recording s then seconds_in events else 0) /\
  (forall r, r < length (recorders (run events s)) ->
             recordingTime (handle (RecorderStopped r) (run events s)) = 0).
Proof.
  intros Hall. destruct (elapsed_run events s Hall) as [Hrec Htime].
  conj_split; [exact Hrec|exact Htime|].
  intros r Hr. now rewrite handle_RecorderStopped.
Qed.

(** X9.  [formatTime] shows the whole minutes unpadded, a colon, and the
    remaining seconds as exactly two decimal digits. *)
Theorem formatTime_shape (seconds : nat) :
  formatTime seconds =
  (toString (seconds / 60) ++ ":" ++
   String (digit (seconds mod 60 / 10))
     (String (digit (seconds mod 60 mod 10)) EmptyString))%string.
Proof.
  unfold formatTime. cbv zeta. rewrite two_digits; [reflexivity|].
  apply Nat.mod_upper_bound. discriminate.
Qed.

(** X10.  Different elapsed times are shown differently. *)
Theorem formatTime_distinguishes (a b : nat) :
  a <> b -> formatTime a <> formatTime b.
Proof.
  intros Hab H. apply Hab.
  assert (Hshape : forall n,
    formatTime n =
    (toString (n / 60) ++
     String ":" (String (digit (n mod 60 / 10))
                   (String (digit (n mod 60 mod 10)) EmptyString)))%string).
  { intros n. unfold formatTime. cbv zeta. rewrite two_digits; [reflexivity|].
    apply Nat.mod_upper_bound. discriminate. }
  rewrite !Hshape in H.
  apply append_inj_suffix in H; [|reflexivity].
  destruct H as [Hmin Hsec]. apply toString_inj in Hmin.
  apply string_cons_inj in Hsec. destruct Hsec as [_ Hsec].
  apply string_cons_inj in Hsec. destruct Hsec as [Htens Hsec].
  apply string_cons_inj in Hsec. destruct Hsec as [Hunits _].
  assert (Ha : a mod 60 < 60) by (apply Nat.mod_upper_bound; discriminate).
  assert (Hb : b mod 60 < 60) by (apply Nat.mod_upper_bound; discriminate).
  apply digit_inj in Htens;
    [|apply Nat.Div0.div_lt_upper_bound; lia
     |apply Nat.Div0.div_lt_upper_bound; lia].
  apply digit_inj in Hunits;
    [|apply Nat.mod_upper_bound; discriminate
     |apply Nat.mod_upper_bound; discriminate].
  pose proof (Nat.div_mod_eq a 60) as Ea. pose proof (Nat.div_mod_eq b 60) as Eb.
  pose proof (Nat.div_mod_eq (a mod 60) 10) as Ea'.
  pose proof (Nat.div_mod_eq (b mod 60) 10) as Eb'.
  lia.
Qed.

(** X11.  The display width is the window's inner width less 40, capped at
    800; it is not bounded below, so a window narrower than 40 gives a
    negative width. *)
Theorem responsive_width_clamped (w : Z) :
  width (responsiveDimensions w) = inject_Z (Z.min (w - 40) 800) /\
  (width (responsiveDimensions w) <= 800)%Q /\
  ((width (responsiveDimensions w) < 0)%Q <-> (w < 40)%Z).
Proof.
  rewrite responsive_width. conj_split; [reflexivity| |].
  - change 800%Q with (inject_Z 800). rewrite <- Zle_Qle. lia.
  - change 0%Q with (inject_Z 0). rewrite <- Zlt_Qlt. lia.
Qed.

(** X12.  After teardown no firing of a timer starts a detection cycle; the
    cycles already awaiting their inference are left pending, and the
    canvases are as they were. *)
Theorem teardown_stops_new_cycles (s : State) :
  reachable s ->
  (forall t, handle (Tick t) (unmount s) = unmount s) /\
  inflight (unmount s) = inflight s /\
  canvases (unmount s) = canvases s.
Proof.
  intros Hreach. conj_split.
  - intros t. unfold handle, detectionTick.
    now rewrite (intervals_unmount s Hreach).
  - apply (unmount_fields s).
  - apply (unmount_fields s).
Qed.

(** X13.  The chunk buffer never holds an empty segment. *)
Theorem chunk_buffer_has_no_empty_segment (s : State) :
  reachable s -> Forall (fun b => 0 < size b) (recordedChunks s).
Proof.
  intros Hreach. pose proof (chunks_ok_reachable s Hreach) as H.
  unfold chunks_ok in H. rewrite Forall_forall in *.
  intros b Hb. apply Nat.ltb_lt. exact (H b Hb).
Qed.

(** X14.  The effect flush that follows a new artifact runs [cleanup]: it
    leaves no detection timer and ends the tracks of the held stream, while
    [cameraReady], [streamRef] and the overlay's canvas stay as they were;
    the display dimensions are computed anew. *)
Theorem artifact_flush_stops_detection (s : State) (r : nat) :
  reachable s -> r < length (recorders s) ->
  let s2 := handle FlushEffects (handle (RecorderStopped r) s) in
  intervals s2 = [] /\
  (forall st, streamRef s = Some st ->
     nth_error (streams s2) st =
     option_map (map (fun _ => Ended)) (nth_error (streams s) st)) /\
  streamRef s2 = streamRef s /\
  cameraReady s2 = cameraReady s /\
  canvasChild s2 = canvasChild s /\
  videoDimensions s2 = responsiveDimensions (innerWidth s).
Proof.
  intros Hreach Hr s2. subst s2.
  assert (Hreach1 : reachable (handle (RecorderStopped r) s))
    by (now apply reachable_handle).
  rewrite (handle_RecorderStopped _ _ Hr) in *.
  destruct (handles_ok_reachable s Hreach) as (_ & _ & He).
  destruct (onstop_handles s) as (_ & Ov & Oe & _).
  assert (Hpending : option_nat_eqb (effectVideoURL (onstop s))
                       (videoURL (onstop s)) = false).
  { rewrite Ov, Oe. destruct (effectVideoURL s) as [e|] eqn:Ee; [|reflexivity].
    unfold option_nat_eqb. specialize (He e eq_refl).
    destruct (Nat.eqb_spec e (nextURL s)); [lia|reflexivity]. }
  destruct (flush_pending (onstop s) Hpending) as (Hi & Hst & Hd).
  assert (Hsr : streamRef (onstop s) = streamRef s) by reflexivity.
  unfold handle. conj_split.
  - rewrite Hi. apply armed_nil, timers_ok_reachable, Hreach1.
  - intros st Hs. rewrite Hst, streams_cleanup, Hsr, Hs.
    now rewrite nth_error_update_nth_same.
  - now rewrite streamRef_flush.
  - destruct (flush_keeps (onstop s)) as (-> & _).
    apply (onstop_keeps s).
  - destruct (flush_keeps (onstop s)) as (_ & -> & _).
    apply (onstop_keeps s).
  - rewrite Hd. f_equal.
Qed.

(** X15.  The handle behind the download link only moves forward: along a
    run it is never replaced by an earlier one, and each stop notification
    exposes one greater than any exposed before. *)
Theorem exposed_handle_only_increases
        (events : list Event) (s : State) (u : nat) :
  reachable s -> videoURL s = Some u ->
  (exists u', videoURL (run events s) = Some u' /\ u <= u') /\
  (forall r, r < length (recorders s) ->
     exists u', videoURL (handle (RecorderStopped r) s) = Some u' /\ u < u').
Proof.
  intros Hreach Hu. split.
  - induction events as [|e events IH] using rev_ind.
    + exists u. now split.
    + destruct IH as (u1 & H1 & Hle). rewrite run_snoc.
      set (s1 := run events s) in *.
      assert (Hr1 : reachable s1) by (now apply reachable_run).
      destruct (handles_ok_reachable s1 Hr1) as (Hb & Hl & _).
      pose proof (Hb u1 (Hl u1 H1)) as Hv.
      assert (Hcases : videoURL (handle e s1) = videoURL s1 \/
                       videoURL (handle e s1) = Some (nextURL s1)).
      { destruct e; try (left; unchanged).
        unfold handle. destruct (r <? length (recorders s1)); [|now left].
        right. reflexivity. }
      destruct Hcases as [-> | ->].
      * exists u1. now split.
      * exists (nextURL s1). split; [reflexivity|lia].
  - intros r Hr. rewrite handle_RecorderStopped by exact Hr.
    destruct (handles_ok_reachable s Hreach) as (Hb & Hl & _).
    exists (nextURL s). split; [reflexivity|]. exact (Hb u (Hl u Hu)).
Qed.

(** * The further properties at the sample runs *)

Example three_seconds_shown :
  formatTime (recordingTime (run threeSeconds firstSession)) = "0:03"%string /\
  formatTime 3600 = "60:00"%string.
Proof. vm_compute. split; reflexivity. Qed.

Example tick_starts_a_cycle_while_mounted :
  inflight playing = [] /\ inflight (handle (Tick 1) playing) = [playingClosure].
Proof. vm_compute. split; reflexivity. Qed.

Lemma nothing_starts_witness :
  reachable cameraDenied /\ ready cameraDenied = false /\
  recorders cameraDenied = [] /\
  handle (ClickStart StartOk) cameraDenied = cameraDenied.
Proof.
  assert (Hr : reachable cameraDenied) by sample_reachable untilCameraDenied.
  split; [exact Hr|]. split; [reflexivity|].
  destruct (nothing_starts_before_ready cameraDenied Hr eq_refl)
    as (Hidle & _ & Hstart & _).
  split; [|exact (Hstart StartOk)].
  destruct Hidle as (_ & _ & _ & _ & H & _). exact H.
Defined.

Lemma readiness_witness :
  cameraReady firstStopping = true /\
  cameraReady (run [RecorderStopped 0; FlushEffects] firstStopping) = true.
Proof.
  split; [reflexivity|].
  exact (proj2 (readiness_never_reset [RecorderStopped 0; FlushEffects]
                  firstStopping) eq_refl).
Defined.

Lemma one_timer_witness :
  reachable restarted /\ length (intervals restarted) <= 1.
Proof.
  assert (Hr : reachable restarted) by sample_reachable untilRestarted.
  split; [exact Hr|]. exact (proj1 (one_detection_timer restarted Hr)).
Defined.

Lemma download_link_witness :
  reachable secondArtifact /\ videoURL secondArtifact = Some 1 /\
  In 1 (liveHandles secondArtifact).
Proof.
  assert (Hr : reachable secondArtifact)
    by sample_reachable (untilSecondStopping ++ [RecorderStopped 1]).
  split; [exact Hr|]. split; [reflexivity|].
  exact (proj1 (download_link_is_live secondArtifact 1 Hr eq_refl)).
Defined.

Lemma regrant_witness :
  reachable playing /\ streamRef playing = Some 0 /\
  nth_error (streams playing) 0 = Some [Live] /\
  nth_error (streams (unmount (handle (CameraResult (Some 1)) playing))) 0 =
    nth_error (streams playing) 0.
Proof.
  assert (Hr : reachable playing) by sample_reachable untilPlaying.
  split; [exact Hr|]. do 2 (split; [reflexivity|]).
  destruct (regrant_leaves_previous_stream playing 0 1 Hr eq_refl)
    as (_ & _ & _ & H).
  exact H.
Defined.

Lemma failed_start_witness :
  reachable playing /\ StartThrew <> StartOk /\ recording playing = false /\
  ready playing = true /\ canvasChild playing <> None /\
  error (handle (ClickStart StartThrew) playing) =
    Some "Failed to start recording"%string /\
  activeRecorders (handle (ClickStart StartThrew) playing) = 0.
Proof.
  assert (Hr : reachable playing) by sample_reachable untilPlaying.
  assert (Ho : StartThrew <> StartOk) by discriminate.
  assert (Hc : canvasChild playing <> None) by (vm_compute; discriminate).
  split; [exact Hr|]. split; [exact Ho|]. do 2 (split; [reflexivity|]).
  split; [exact Hc|].
  destruct (failed_start_leaves_no_session playing StartThrew Hr Ho
              eq_refl eq_refl Hc) as (He & _ & Ha & _).
  split; [exact He|exact Ha].
Defined.

Lemma restart_witness :
  reachable firstSession /\ ready firstSession = true /\
  nth_error (recorders firstSession) 0 =
    Some {| mr_canvas := 0; mr_state := Recording |} /\
  nth_error (recorders (handle VideoPlay firstSession)) 0 =
    Some {| mr_canvas := 0; mr_state := Recording |} /\
  canvasChild (handle VideoPlay firstSession) =
    Some (length (canvases firstSession)).
Proof.
  assert (Hr : reachable firstSession) by sample_reachable untilFirstSession.
  split; [exact Hr|]. do 2 (split; [reflexivity|]).
  destruct (restart_leaves_recorder_on_old_canvas firstSession 0
              {| mr_canvas := 0; mr_state := Recording |} Hr eq_refl eq_refl)
    as (H1 & H2 & _).
  split; [exact H1|exact H2].
Defined.

Lemma elapsed_witness :
  forallb keeps_session threeSeconds = true /\
  seconds_in threeSeconds = 3 /\
  recordingTime (run threeSeconds firstSession) =
    recordingTime firstSession +
    (if recording firstSession then seconds_in threeSeconds else 0).
Proof.
  do 2 (split; [reflexivity|]).
  destruct (elapsed_time_counts_seconds threeSeconds firstSession eq_refl)
    as (_ & H & _).
  exact H.
Defined.

Lemma formatTime_witness : 59 <> 60 /\ formatTime 59 <> formatTime 60.
Proof.
  assert (H : 59 <> 60) by discriminate.
  split; [exact H|]. exact (formatTime_distinguishes 59 60 H).
Defined.

Lemma teardown_witness :
  reachable playing /\ handle (Tick 1) (unmount playing) = unmount playing.
Proof.
  assert (Hr : reachable playing) by sample_reachable untilPlaying.
  split; [exact Hr|].
  exact (proj1 (teardown_stops_new_cycles playing Hr) 1).
Defined.

Lemma chunk_buffer_witness :
  reachable (run sessionEvents firstSession) /\
  Forall (fun b => 0 < size b) (recordedChunks (run sessionEvents firstSession)).
Proof.
  assert (Hr : reachable (run sessionEvents firstSession)).
  { apply (reachable_run sessionEvents firstSession).
    sample_reachable untilFirstSession. }
  split; [exact Hr|].
  exact (chunk_buffer_has_no_empty_segment _ Hr).
Defined.

Lemma artifact_flush_witness :
  reachable firstStopping /\ 0 < length (recorders firstStopping) /\
  length (intervals firstStopping) = 1 /\
  intervals (handle FlushEffects (handle (RecorderStopped 0) firstStopping))
    = [].
Proof.
  assert (Hr : reachable firstStopping) by sample_reachable untilFirstStopping.
  assert (Hlt : 0 < length (recorders firstStopping)) by (vm_compute; lia).
  split; [exact Hr|]. split; [exact Hlt|]. split; [reflexivity|].
  exact (proj1 (artifact_flush_stops_detection firstStopping 0 Hr Hlt)).
Defined.

Lemma exposed_handle_witness :
  reachable secondStopping /\ videoURL secondStopping = Some 0 /\
  1 < length (recorders secondStopping) /\
  exists u',
    videoURL (handle (RecorderStopped 1) secondStopping) = Some u' /\ 0 < u'.
Proof.
  assert (Hr : reachable secondStopping) by sample_reachable untilSecondStopping.
  assert (Hlt : 1 < length (recorders secondStopping)) by (vm_compute; lia).
  split; [exact Hr|]. split; [reflexivity|]. split; [exact Hlt|].
  exact (proj2 (exposed_handle_only_increases [] secondStopping 0 Hr eq_refl)
               1 Hlt).
Defined.

(** ** Restarting detection, and cleaning up twice *)

Lemma remove_key_idempotent {A} (k : nat) (l : list (nat * A)) :
  remove_key k (remove_key k l) = remove_key k l.
Proof.
  unfold remove_key. induction l as [|p l IH]; [reflexivity|]. cbn.
  destruct (negb (fst p =? k)) eqn:E; cbn; rewrite ?E, IH; reflexivity.
Qed.

Lemma update_nth_idempotent {A} (n : nat) (f : A -> A) (l : list A) :
  (forall a, f (f a) = f a) ->
  update_nth n f (update_nth n f l) = update_nth n f l.
Proof.
  intros Hf. rewrite update_nth_compose. unfold update_nth.
  destruct (nth_error l n); [|reflexivity]. now rewrite Hf.
Qed.

Lemma cleanup_twice (u : option nat) (s : State) :
  cleanup u (cleanup u s) = cleanup u s.
Proof.
  assert (He : forall l : MediaStream,
             map (fun _ => Ended) (map (fun _ : TrackState => Ended) l) =
             map (fun _ => Ended) l)
    by (intros l; now rewrite map_map).
  unfold cleanup, clearInterval, stopTracks, revokeObjectURL.
  destruct s as [? ? ? ? ? ? ? ? ? ? ? ? timer stream ? ? ? ? ? ? ? ? ? ? ? ?].
  cbn. destruct timer, stream, u; cbn;
    rewrite ?remove_key_idempotent, ?(update_nth_idempotent _ _ _ He);
    reflexivity.
Qed.

(** X16.  [cleanup] can run twice: the second run changes nothing. *)
Theorem cleanup_idempotent (u : option nat) (s : State) :
  cleanup u (cleanup u s) = cleanup u s /\
  intervals (cleanup u s) = armed s /\
  (forall v, u = Some v -> ~ In v (liveHandles (cleanup u s))).
Proof.
  conj_split.
  - apply cleanup_twice.
  - apply intervals_cleanup_armed.
  - intros v ->. rewrite liveHandles_cleanup, filter_In.
    intros [_ H]. now rewrite Nat.eqb_refl in H.
Qed.

(** X17.  A cycle that was awaiting its inference when detection started
    again paints the canvas it was created with: the new overlay stays
    empty, whatever that cycle detected. *)
Theorem late_cycle_spares_new_overlay
        (s : State) (i : nat) (c : Closure) (ds : list Detection) :
  reachable s -> ready s = true -> nth_error (inflight s) i = Some c ->
  let s1 := handle VideoPlay s in
  let s2 := handle (InferenceDone i (Detected ds)) s1 in
  nth_error (inflight s1) i = Some c /\
  option_map cv_ops (overlay s1) = Some [] /\
  overlay s2 = overlay s1.
Proof.
  intros Hreach Hr Hi s1 s2.
  destruct (canvas_ok_reachable s Hreach) as [Hmounted _].
  destruct (closures_ok_reachable s Hreach) as [_ Hcl].
  destruct (Hcl c (nth_error_In _ _ Hi)) as (cv & Hn & _).
  assert (Hlt : cl_canvas c < length (canvases s))
    by (apply nth_error_Some; now rewrite Hn).
  destruct (listener_ok_reachable s Hreach) as (_ & _ & Hl).
  destruct Hl as [Hml Hcr].
  { intros E. rewrite E in Hlt. cbn in Hlt. lia. }
  assert (Hs1 : s1 = startFaceDetection (playListener s) s)
    by (subst s1; now apply handle_VideoPlay).
  destruct (startFaceDetection_mounted (playListener s) s Hmounted)
    as (Hc & Hk & _ & _ & Hf & _).
  rewrite <- Hs1 in Hc, Hk, Hf.
  assert (Hi1 : nth_error (inflight s1) i = Some c) by (now rewrite Hf).
  assert (Ho1 : overlay s1 =
                Some (matchDimensions createCanvasFromMedia
                        (pl_dims (playListener s)))).
  { unfold overlay. rewrite Hk, Hc.
    now rewrite nth_error_app2, Nat.sub_diag by lia. }
  conj_split; [exact Hi1|now rewrite Ho1|].
  rewrite Ho1. subst s2. unfold overlay, handle.
  replace (canvasChild (detectionResume i (Detected ds) s1))
    with (canvasChild s1) by (symmetry; unchanged).
  rewrite Hk, (canvases_detected _ _ _ _ Hi1), Hc.
  rewrite nth_error_update_nth_other by lia.
  now rewrite nth_error_app2, Nat.sub_diag by lia.
Qed.

Lemma late_cycle_witness :
  reachable cycling /\ ready cycling = true /\
  nth_error (inflight cycling) 0 = Some playingClosure /\
  option_map cv_ops (overlay (handle VideoPlay cycling)) = Some [] /\
  overlay (handle (InferenceDone 0 (Detected [face])) (handle VideoPlay cycling))
    = overlay (handle VideoPlay cycling).
Proof.
  assert (Hr : reachable cycling) by sample_reachable untilCycling.
  split; [exact Hr|]. do 2 (split; [reflexivity|]).
  destruct (late_cycle_spares_new_overlay cycling 0 playingClosure [face]
              Hr eq_refl eq_refl) as (_ & H1 & H2).
  split; [exact H1|exact H2].
Defined.
